(** * Jhagmag LED controller: device link, audio engine and mode coordinator

  A shallow embedding of [modules/serial_connection.py],
  [modules/audio_visualizer.py], [modules/screen_responsive.py] and of the
  tab coordinator of [main.py].

  Conventions of the embedding.
  - Python objects are records; a method is an action of a state and
    exception monad over the objects it may mutate.  The state survives an
    exception, as a Python object does.
  - An attribute that may be missing ([hasattr]) or hold [None] is an
    [option].
  - Python [float] values are exact rationals ([Q]); [int] values are [Z].
    Rounding of binary floating point is not modelled.
  - [print], [time.sleep] and the drawing calls have no effect on the
    modelled state and are left out. *)

From Stdlib Require Import ZArith QArith Qround List String Bool Lia Lqa.
Import ListNotations.

Local Open Scope Z_scope.

(** ** Exceptions and the method monad *)

Module Py.

Inductive exn : Type :=
| AttributeError (attr : string)
| ValueError
| ZeroDivisionError
| PortNotOpenError
| SerialException.

Definition M (St A : Type) : Type := St -> (exn + A) * St.

Definition ret {St A} (a : A) : M St A := fun s => (inr a, s).

Definition bind {St A B} (m : M St A) (f : A -> M St B) : M St B :=
  fun s =>
    match m s with
    | (inr a, s') => f a s'
    | (inl e, s') => (inl e, s')
    end.

Definition raise {St A} (e : exn) : M St A := fun s => (inl e, s).

Definition gets {St A} (f : St -> A) : M St A := fun s => (inr (f s), s).

Definition modify {St} (f : St -> St) : M St unit := fun s => (inr tt, f s).

(** Run a method of a sub-object inside a larger state. *)
Definition zoom {St T A} (get : St -> T) (set : T -> St -> St)
           (m : M T A) : M St A :=
  fun s => let (r, t) := m (get s) in (r, set t s).

Definition returned {St A} (r : (exn + A) * St) : Prop :=
  exists a, fst r = inr a.

Definition raised {St A} (r : (exn + A) * St) (e : exn) : Prop :=
  fst r = inl e.

(** [bytes(iterable_of_ints)]: every item must be in [range(256)]. *)
Definition is_byte (z : Z) : bool := (0 <=? z) && (z <? 256).

Definition bytes {St} (l : list Z) : M St (list Z) :=
  if forallb is_byte l then ret l else raise ValueError.

End Py.

Import Py.

Declare Scope py_scope.
Delimit Scope py_scope with py.
Notation "x <- m ;; k" := (bind m (fun x => k))
(at level 61, m at next level, right associativity) : py_scope.
Notation "m ;;; k" := (bind m (fun _ => k))
(at level 61, right associativity) : py_scope.
Local Open Scope py_scope.

(** ** The transport: [serial.Serial] as far as the program uses it *)

Module Serial.

(** [written] is the log of [write] calls, oldest first; one entry per
    call. *)
Record t : Type := mk { is_open : bool; written : list (list Z) }.

Definition open_new : t := {| is_open := true; written := [] |}.

Definition write (data : list Z) : M t unit :=
  fun s =>
    if is_open s
    then (inr tt, {| is_open := true; written := written s ++ [data] |})
    else (inl PortNotOpenError, s).

Definition close : M t unit :=
  modify (fun s => {| is_open := false; written := written s |}).

End Serial.

(** ** Device link: [modules/serial_connection.py] *)

Module SerialConnection.

(** [threading.Thread]: only liveness is observed. *)
Record Thread : Type := { alive : bool }.

(** The class object.  [_instance] is the class attribute that [close]
    deletes; [None] means that the attribute is not bound. *)
Record Class : Type := { _instance : option unit }.

(** The class as the [class] statement leaves it. *)
Definition class_def : Class := {| _instance := None |}.

(** An instance.  [thread] is [None] while the attribute does not exist. *)
Record t : Type := mk {
  arduino : option Serial.t;
  port : string;
  baudrate : Z;
  stop_thread : bool;
  debug : bool;
  thread : option Thread
}.

Definition __init__ (port : string) (baudrate : Z) (debug : bool) : t :=
  {| arduino := None; port := port; baudrate := baudrate;
     stop_thread := false; debug := debug; thread := None |}.

Definition set_arduino (a : option Serial.t) (s : t) : t :=
  mk a (port s) (baudrate s) (stop_thread s) (debug s) (thread s).

Definition set_stop_thread (b : bool) (s : t) : t :=
  mk (arduino s) (port s) (baudrate s) b (debug s) (thread s).

Definition set_thread (th : option Thread) (s : t) : t :=
  mk (arduino s) (port s) (baudrate s) (stop_thread s) (debug s) th.

(** [self.arduino and self.arduino.is_open] *)
Definition link_open (s : t) : bool :=
  match arduino s with
  | Some a => Serial.is_open a
  | None => false
  end.

(** [self.arduino.write(data)] *)
Definition arduino_write (data : list Z) : M t unit :=
  fun s =>
    match arduino s with
    | Some a => zoom (fun _ => a) (fun a' => set_arduino (Some a'))
                     (Serial.write data) s
    | None => (inl (AttributeError "write"), s)
    end.

(** Everything written on the current transport object. *)
Definition wire (s : t) : list (list Z) :=
  match arduino s with
  | Some a => Serial.written a
  | None => []
  end.

Definition send_timeout (enabled : bool) : M t unit :=
  open <- gets link_open ;;
  if negb open then ret tt
  else
    let val := if enabled then 1 else 0 in
    data <- bytes [1; val] ;;
    arduino_write data.

Definition modes : list (string * Z) :=
  [ ("OFF", 0); ("Solid", 0); ("Fade", 1); ("Cycle", 2);
    ("Rainbow Cycle", 3); ("Breathing", 4); ("Random", 5) ]%string.

(** [modes[mode]], [None] when [mode not in modes]. *)
Fixpoint lookup (k : string) (d : list (string * Z)) : option Z :=
  match d with
  | [] => None
  | (k', v) :: d' => if String.eqb k k' then Some v else lookup k d'
  end.

Definition set_mode (mode : string) : M t unit :=
  open <- gets link_open ;;
  if negb open then ret tt
  else
    match lookup mode modes with
    | Some code =>
        data <- bytes [2; code] ;;
        arduino_write data
    | None => ret tt
    end.

Definition send_color (red green blue : Z) : M t unit :=
  open <- gets link_open ;;
  if negb open then ret tt
  else
    data <- bytes [3; red; green; blue] ;;
    arduino_write data.

(** [start_thread]; the body of the reader thread only reads from the
    transport and is not modelled. *)
Definition start_thread : M t unit :=
  open <- gets link_open ;;
  if negb open then ret tt
  else
    th <- gets thread ;;
    match th with
    | Some {| alive := true |} => ret tt
    | _ =>
        modify (set_thread (Some {| alive := true |})) ;;;
        modify (set_stop_thread false)
    end.

(** [connect]; [env_ok] tells whether [serial.Serial(port, baudrate)]
    succeeds in opening the port. *)
Definition connect (env_ok : bool) : M t unit :=
  open <- gets link_open ;;
  if negb open
  then
    if env_ok then modify (set_arduino (Some Serial.open_new))
    else raise SerialException
  else ret tt.

Definition disconnect : M t unit :=
  open <- gets link_open ;;
  if open
  then
    fun s =>
      match arduino s with
      | Some a => zoom (fun _ => a) (fun a' => set_arduino (Some a'))
                       Serial.close s
      | None => (inr tt, s)
      end
  else ret tt.

Definition reconnect (env_ok : bool) : M t unit :=
  disconnect ;;; connect env_ok.

Definition update_settings (p : string) (b : Z) (env_ok : bool) : M t unit :=
  modify (fun s => mk (arduino s) p b (stop_thread s) (debug s) (thread s)) ;;;
  reconnect env_ok.

(** [self.thread.join()]: the reader loop leaves once [stop_thread] is
    set, so the joined thread is dead afterwards. *)
Definition thread_join : M t unit :=
  th <- gets thread ;;
  match th with
  | None => raise (AttributeError "thread")
  | Some _ => modify (set_thread (Some {| alive := false |}))
  end.

(** [self.arduino.close()] *)
Definition arduino_close : M t unit :=
  fun s =>
    match arduino s with
    | Some a => zoom (fun _ => a) (fun a' => set_arduino (Some a'))
                     Serial.close s
    | None => (inl (AttributeError "close"), s)
    end.

(** [del SerialConnection._instance] *)
Definition del_instance : M Class unit :=
  c <- gets _instance ;;
  match c with
  | None => raise (AttributeError "_instance")
  | Some _ => modify (fun _ => {| _instance := None |})
  end.

(** [close] acts on the instance and on the class object. *)
Definition on_self {A} (m : M t A) : M (Class * t) A :=
  zoom snd (fun s' w => (fst w, s')) m.

Definition on_class {A} (m : M Class A) : M (Class * t) A :=
  zoom fst (fun c' w => (c', snd w)) m.

Definition close : M (Class * t) unit :=
  on_self (modify (set_stop_thread true)) ;;;
  on_self thread_join ;;;
  on_self arduino_close ;;;
  on_class del_instance.

(** The calls a client can make on the one connection object. *)
Inductive call : Type :=
| Connect (env_ok : bool)
| Disconnect
| Reconnect (env_ok : bool)
| UpdateSettings (p : string) (b : Z) (env_ok : bool)
| SendTimeout (enabled : bool)
| SetMode (mode : string)
| SendColor (red green blue : Z)
| StartThread
| Close.

Definition is_start_thread (c : call) : bool :=
  match c with StartThread => true | _ => false end.

Definition perform (c : call) : M (Class * t) unit :=
  match c with
  | Connect ok => on_self (connect ok)
  | Disconnect => on_self disconnect
  | Reconnect ok => on_self (reconnect ok)
  | UpdateSettings p b ok => on_self (update_settings p b ok)
  | SendTimeout e => on_self (send_timeout e)
  | SetMode m => on_self (set_mode m)
  | SendColor r g b => on_self (send_color r g b)
  | StartThread => on_self start_thread
  | Close => close
  end.

(** A client that catches whatever a call raises and goes on. *)
Fixpoint run (cs : list call) (w : Class * t) : Class * t :=
  match cs with
  | [] => w
  | c :: cs' => run cs' (snd (perform c w))
  end.

End SerialConnection.

(** ** Audio reactive engine: [modules/audio_visualizer.py] *)

Module AudioVisualizer.

Local Open Scope Q_scope.

(** [a > b] on floats. *)
Definition Qgt_bool (a b : Q) : bool := negb (Qle_bool a b).

(** [max(a, b)] and [min(a, b)] of Python: the first argument is kept
    unless the second is strictly better. *)
Definition py_max (a b : Q) : Q := if Qgt_bool b a then b else a.
Definition py_min (a b : Q) : Q := if Qgt_bool a b then b else a.

(** [int(x)] on a float: truncation toward zero. *)
Definition py_int (x : Q) : Z := Z.quot (Qnum x) (Zpos (Qden x)).

(** [a / b] on numbers. *)
Definition py_div {St} (a b : Q) : M St Q :=
  if Qeq_bool b 0 then raise ZeroDivisionError else ret (a / b).

Record t : Type := mk {
  running : bool;
  CHUNK : Z;
  RATE : Z;
  stream_active : bool;
  ani_active : bool;
  current_bass : Q;
  current_mid : Q;
  current_treble : Q;
  max_bass : Q;
  max_mid : Q;
  max_treble : Q;
  FADE_THRESHOLD : Q;
  NOISE_GATE_THRESHOLD : Q;
  DECAY_TIME : Z
}.

(** The constructor, with its defaults [chunk=1024], [rate=44100].  The
    input stream is opened started; the animation timer is started by the
    first draw of the figure. *)
Definition __init__ (chunk rate : Z) : t :=
  {| running := false; CHUNK := chunk; RATE := rate;
     stream_active := true; ani_active := false;
     current_bass := 0; current_mid := 0; current_treble := 0;
     max_bass := 1; max_mid := 1; max_treble := 1;
     FADE_THRESHOLD := 5 # 100;
     NOISE_GATE_THRESHOLD := 2 # 100;
     DECAY_TIME := 1 |}.

Definition default : t := __init__ 1024 44100.

Definition set_lifecycle (r st an : bool) (s : t) : t :=
  mk r (CHUNK s) (RATE s) st an
     (current_bass s) (current_mid s) (current_treble s)
     (max_bass s) (max_mid s) (max_treble s)
     (FADE_THRESHOLD s) (NOISE_GATE_THRESHOLD s) (DECAY_TIME s).

Definition set_bass (c m : Q) (s : t) : t :=
  mk (running s) (CHUNK s) (RATE s) (stream_active s) (ani_active s)
     c (current_mid s) (current_treble s)
     m (max_mid s) (max_treble s)
     (FADE_THRESHOLD s) (NOISE_GATE_THRESHOLD s) (DECAY_TIME s).

Definition set_mid (c m : Q) (s : t) : t :=
  mk (running s) (CHUNK s) (RATE s) (stream_active s) (ani_active s)
     (current_bass s) c (current_treble s)
     (max_bass s) m (max_treble s)
     (FADE_THRESHOLD s) (NOISE_GATE_THRESHOLD s) (DECAY_TIME s).

Definition set_treble (c m : Q) (s : t) : t :=
  mk (running s) (CHUNK s) (RATE s) (stream_active s) (ani_active s)
     (current_bass s) (current_mid s) c
     (max_bass s) (max_mid s) m
     (FADE_THRESHOLD s) (NOISE_GATE_THRESHOLD s) (DECAY_TIME s).

(** [decay_rate = 1 - (1 / (self.RATE * self.DECAY_TIME))] *)
Definition decay_rate {St} (s : t) : M St Q :=
  q <- py_div 1 (inject_Z (RATE s * DECAY_TIME s)) ;;
  ret (1 - q).

(** One band of the gate and decay step: the new current level and the new
    running maximum. *)
Definition gate (threshold decay level current maxi : Q) : Q * Q :=
  if Qgt_bool level threshold
  then (level, py_max maxi level)
  else (py_max (current - decay) 0, maxi).

Definition gate_bass (decay level : Q) (s : t) : t :=
  let (c, m) := gate (NOISE_GATE_THRESHOLD s) decay level
                     (current_bass s) (max_bass s) in
  set_bass c m s.

Definition gate_mid (decay level : Q) (s : t) : t :=
  let (c, m) := gate (NOISE_GATE_THRESHOLD s) decay level
                     (current_mid s) (max_mid s) in
  set_mid c m s.

Definition gate_treble (decay level : Q) (s : t) : t :=
  let (c, m) := gate (NOISE_GATE_THRESHOLD s) decay level
                     (current_treble s) (max_treble s) in
  set_treble c m s.

(** The inner function of [audio_to_rgb]. *)
Definition amplitude_to_rgb (level multiplier : Q) (min_rgb : Z) : Z :=
  if Qle_bool level (5 # 100) then 0%Z
  else
    let rgb_value :=
      py_int (inject_Z min_rgb
              + (inject_Z (255 - min_rgb) * level) * multiplier) in
    Z.max 0 (Z.min 255 rgb_value).

Definition audio_to_rgb (bass_level mid_level treble_level : Q)
  : Z * Z * Z :=
  let red := amplitude_to_rgb bass_level (12 # 10) 25 in
  let green := amplitude_to_rgb mid_level 1 25 in
  let blue := amplitude_to_rgb treble_level 1 25 in
  (red, green, blue).

Definition on_self {A} (m : M t A) : M (t * SerialConnection.t) A :=
  zoom fst (fun s' w => (s', snd w)) m.

Definition on_conn {A} (m : M SerialConnection.t A)
  : M (t * SerialConnection.t) A :=
  zoom snd (fun c' w => (fst w, c')) m.

(** [update]: one tick.  The three measured band levels (the means of the
    magnitude spectrum over the band's bins) are the inputs; the engine
    shares the connection object with its owner. *)
Definition update (bass_level mid_level treble_level : Q)
  : M (t * SerialConnection.t) unit :=
  s0 <- gets fst ;;
  decay <- decay_rate s0 ;;
  on_self (modify (gate_bass decay bass_level)) ;;;
  on_self (modify (gate_mid decay mid_level)) ;;;
  on_self (modify (gate_treble decay treble_level)) ;;;
  s <- gets fst ;;
  normalized_bass <- py_div (current_bass s) (max_bass s) ;;
  normalized_mid <- py_div (current_mid s) (max_mid s) ;;
  normalized_treble <- py_div (current_treble s) (max_treble s) ;;
  let compressed_mid := py_min (normalized_mid * (12 # 10)) 1 in
  let compressed_treble := py_min (normalized_treble * (15 # 10)) 1 in
  if Qgt_bool normalized_bass (FADE_THRESHOLD s)
     || Qgt_bool compressed_mid (FADE_THRESHOLD s)
     || Qgt_bool compressed_treble (FADE_THRESHOLD s)
  then
    let '(red, green, blue) :=
      audio_to_rgb normalized_bass compressed_mid compressed_treble in
    on_conn (SerialConnection.send_color red green blue)
  else ret tt.

Definition start : M t unit :=
  modify (fun s => set_lifecycle true true true s).

Definition stop : M t unit :=
  modify (fun s => set_lifecycle false false false s).

Definition is_running (s : t) : bool := running s.

(** What can happen to an engine during its lifetime. *)
Inductive event : Type :=
| Tick (bass_level mid_level treble_level : Q)
| Start
| Stop.

Definition handle (e : event) : M (t * SerialConnection.t) unit :=
  match e with
  | Tick b m tr => update b m tr
  | Start => on_self start
  | Stop => on_self stop
  end.

Fixpoint run (es : list event) (w : t * SerialConnection.t)
  : t * SerialConnection.t :=
  match es with
  | [] => w
  | e :: es' => run es' (snd (handle e w))
  end.

End AudioVisualizer.

(** ** Screen reactive engine: [modules/screen_responsive.py] *)

Module ScreenResponsive.

(** [frame_interval], which only sets the sleep between two passes of the
    loop, and the capture and clustering of [get_dominant_color] are left
    out: the colour a pass sends is an input of [core_pass]. *)
Record t : Type := mk {
  running : bool;
  fps : Z;
  snapshot : option (Z * Z * Z * Z)
}.

Definition __init__ (fps : Z) : t :=
  {| running := false; fps := fps; snapshot := None |}.

Definition set_running (b : bool) (s : t) : t := mk b (fps s) (snapshot s).

Definition on_self {A} (m : M t A) : M (t * SerialConnection.t) A :=
  zoom fst (fun s' w => (s', snd w)) m.

Definition on_conn {A} (m : M SerialConnection.t A)
  : M (t * SerialConnection.t) A :=
  zoom snd (fun c' w => (fst w, c')) m.

(** [start] hands [core] to a new thread; the first statement of [core]
    sets the flag.  The thread switch itself is not modelled. *)
Definition start : M t unit := modify (set_running true).

(** One pass of the loop of [core], given the colour that
    [get_dominant_color] returned; whatever the pass raises ends the loop
    silently. *)
Definition core_pass (dominant_color : Z * Z * Z)
  : M (t * SerialConnection.t) unit :=
  fun w =>
    if running (fst w)
    then
      let '(r, g, b) := dominant_color in
      let (_, w') := on_conn (SerialConnection.send_color r g b) w in
      (inr tt, w')
    else (inr tt, w).

Definition stop : M (t * SerialConnection.t) unit :=
  on_conn (SerialConnection.set_mode "OFF") ;;;
  on_self (modify (set_running false)).

Definition select_snapshot (x y width height : Z) : M t unit :=
  modify (fun s => mk (running s) (fps s) (Some (x, y, width, height))).

Definition clear_snapshot : M t unit :=
  modify (fun s => mk (running s) (fps s) None).

Definition is_running (s : t) : bool := running s.

End ScreenResponsive.

(** ** Mode coordinator: [LEDControllerUI] of [main.py] *)

Module LEDControllerUI.

(** The attributes the coordinator reads.  [visualizer] and
    [screen_responsive] are [None] while [hasattr] is false. *)
Record t : Type := mk {
  conn : SerialConnection.t;
  visualizer : option AudioVisualizer.t;
  screen_responsive : option ScreenResponsive.t;
  R : Z;
  G : Z;
  B : Z;
  selected_button : option string
}.

Definition set_conn (c : SerialConnection.t) (s : t) : t :=
  mk c (visualizer s) (screen_responsive s) (R s) (G s) (B s)
     (selected_button s).

Definition set_visualizer (v : AudioVisualizer.t) (s : t) : t :=
  mk (conn s) (Some v) (screen_responsive s) (R s) (G s) (B s)
     (selected_button s).

Definition set_screen (p : ScreenResponsive.t * SerialConnection.t) (s : t)
  : t :=
  mk (snd p) (visualizer s) (Some (fst p)) (R s) (G s) (B s)
     (selected_button s).

Definition on_conn {A} (m : M SerialConnection.t A) : M t A :=
  zoom conn set_conn m.

(** [self.visualizer.<method>()] *)
Definition on_visualizer {A} (m : M AudioVisualizer.t A) : M t A :=
  fun s =>
    match visualizer s with
    | Some v => zoom (fun _ => v) set_visualizer m s
    | None => (inl (AttributeError "visualizer"), s)
    end.

(** [self.screen_responsive.<method>()]; the engine writes through the
    connection object it shares with the window. *)
Definition on_screen {A} (m : M (ScreenResponsive.t * SerialConnection.t) A)
  : M t A :=
  fun s =>
    match screen_responsive s with
    | Some sr => zoom (fun s => (sr, conn s)) set_screen m s
    | None => (inl (AttributeError "screen_responsive"), s)
    end.

Definition visualizer_running (s : t) : bool :=
  match visualizer s with
  | Some v => AudioVisualizer.is_running v
  | None => false
  end.

Definition screen_running (s : t) : bool :=
  match screen_responsive s with
  | Some sr => ScreenResponsive.is_running sr
  | None => false
  end.

Definition unactiveTab : M t unit :=
  on_conn (SerialConnection.set_mode "OFF") ;;;
  v <- gets visualizer_running ;;
  (if v then on_visualizer AudioVisualizer.stop else ret tt) ;;;
  sr <- gets screen_running ;;
  (if sr then on_screen ScreenResponsive.stop else ret tt).

(** The [if]/[elif] chain of [on_tab_changed] after the call of
    [unactiveTab]. *)
Definition activate (index : Z) : M t unit :=
  if index =? 0 then
    on_conn (SerialConnection.send_timeout false) ;;;
    s <- gets (fun s => s) ;;
    on_conn (SerialConnection.send_color (R s) (G s) (B s))
  else if index =? 1 then
    on_conn (SerialConnection.send_timeout false) ;;;
    b <- gets selected_button ;;
    match b with
    | Some text => on_conn (SerialConnection.set_mode text)
    | None => ret tt
    end
  else if index =? 2 then
    on_conn (SerialConnection.send_timeout true) ;;;
    on_visualizer AudioVisualizer.start
  else ret tt.

Definition on_tab_changed (index : Z) : M t unit :=
  unactiveTab ;;; activate index.

Definition wire (s : t) : list (list Z) := SerialConnection.wire (conn s).

End LEDControllerUI.

(** ** Spectrum helpers of the audio engine: [nextpow2] and
    [get_frequency_indices] of [modules/audio_visualizer.py] *)

Module Spectrum.



(** [np.arange(0, N)] *)
Definition arange (N : Z) : list Z := map Z.of_nat (seq 0 (Z.to_nat N)).

(** [np.fft.rfftfreq(n, d)] with [d = 1.0 / rate]: the frequencies
    [k * val] for [k] in [0 .. n // 2], where [val = 1.0 / (n * d)]. *)
Definition rfftfreq (n rate : Z) : exn + list Q :=
  if rate =? 0 then inl ZeroDivisionError
  else
    let d := (1 / inject_Z rate)%Q in
    if Qeq_bool (inject_Z n * d) 0 then inl ZeroDivisionError
    else
      let val := (1 / (inject_Z n * d))%Q in
      inr (map (fun k => (inject_Z k * val)%Q) (arange (n / 2 + 1))).

(** [np.where(mask)[0]]: the positions at which the mask holds, in
    increasing order. *)
Fixpoint where_ (i : Z) (mask : list bool) : list Z :=
  match mask with
  | [] => []
  | true :: rest => i :: where_ (i + 1) rest
  | false :: rest => where_ (i + 1) rest
  end.

Definition in_range (lo hi f : Q) : bool := Qle_bool lo f && Qle_bool f hi.

Definition get_frequency_indices (lo hi : Q) (n_fft rate : Z)
  : exn + list Z :=
  match rfftfreq n_fft rate with
  | inl e => inl e
  | inr freqs => inr (where_ 0 (map (in_range lo hi) freqs))
  end.

(** The three bands that [update] asks for, with [n_fft = self.CHUNK]. *)
Definition bass_idx (s : AudioVisualizer.t) : exn + list Z :=
  get_frequency_indices 20 250
    (AudioVisualizer.CHUNK s) (AudioVisualizer.RATE s).

Definition mid_idx (s : AudioVisualizer.t) : exn + list Z :=
  get_frequency_indices 250 4000
    (AudioVisualizer.CHUNK s) (AudioVisualizer.RATE s).

Definition treble_idx (s : AudioVisualizer.t) : exn + list Z :=
  get_frequency_indices 4000 20000
    (AudioVisualizer.CHUNK s) (AudioVisualizer.RATE s).

End Spectrum.

(** ** The loop of the screen engine and its capture region *)

Module ScreenLoop.

Import ScreenResponsive.

(** The box handed to [ImageGrab.grab] by [get_dominant_color]: [None] is
    the full screen.  A tuple of four is true whatever it holds. *)
Definition grab_bbox (s : t) : option (Z * Z * Z * Z) :=
  match snapshot s with
  | Some (x, y, width, height) => Some (x, y, x + width, y + height)
  | None => None
  end.

(** The passes of the [while] loop of [core] over the colours that
    [get_dominant_color] returns one after the other; an exception leaves
    the loop. *)
Fixpoint core_loop (colors : list (Z * Z * Z))
  : M (t * SerialConnection.t) unit :=
  fun w =>
    match colors with
    | [] => (inr tt, w)
    | (r, g, b) :: rest =>
        if running (fst w)
        then
          match on_conn (SerialConnection.send_color r g b) w with
          | (inr _, w') => core_loop rest w'
          | (inl e, w') => (inl e, w')
          end
        else (inr tt, w)
    end.

(** [core]: the flag is set, the loop runs, and [except Exception: pass]
    swallows what the loop raises. *)
Definition core (colors : list (Z * Z * Z))
  : M (t * SerialConnection.t) unit :=
  fun w =>
    let (_, w') :=
      (on_self (modify (set_running true)) ;;; core_loop colors) w in
    (inr tt, w').

(** The frame that carries a colour. *)
Definition color_frame (c : Z * Z * Z) : list Z :=
  let '(r, g, b) := c in [3; r; g; b].

Definition color_ok (c : Z * Z * Z) : bool :=
  let '(r, g, b) := c in is_byte r && is_byte g && is_byte b.

End ScreenLoop.

(** ** The region selector: [ScreenDimensionSelector] of [main.py] *)

Module ScreenDimensionSelector.

(** A [QPoint].  In a condition PyQt takes a point as false when it is the
    null point, both coordinates zero. *)
Definition QPoint : Type := (Z * Z)%type.

Definition truthy (p : option QPoint) : bool :=
  match p with
  | Some (x, y) => negb ((x =? 0) && (y =? 0))
  | None => false
  end.

Record t : Type := mk {
  start_pos : option QPoint;
  end_pos : option QPoint;
  selection_complete_flag : bool;
  selection_complete_callback : bool   (* bound or [None] *)
}.

Definition __init__ : t :=
  {| start_pos := None; end_pos := None;
     selection_complete_flag := false;
     selection_complete_callback := false |}.

Definition mousePressEvent (pos : QPoint) (s : t) : t :=
  if negb (selection_complete_flag s)
  then mk (Some pos) (end_pos s) (selection_complete_flag s)
          (selection_complete_callback s)
  else s.

Definition mouseMoveEvent (pos : QPoint) (s : t) : t :=
  if negb (selection_complete_flag s)
  then mk (start_pos s) (Some pos) (selection_complete_flag s)
          (selection_complete_callback s)
  else s.

Definition mouseReleaseEvent (pos : QPoint) (s : t) : t :=
  if negb (selection_complete_flag s)
  then mk (start_pos s) (Some pos) true (selection_complete_callback s)
  else s.

Definition discard_selection (s : t) : t :=
  mk None None false (selection_complete_callback s).

(** [selection_complete]: the arguments with which the callback is called,
    if it is called. *)
Definition selection_complete (s : t) : option (Z * Z * Z * Z) :=
  if truthy (start_pos s) && truthy (end_pos s)
  then
    match start_pos s, end_pos s with
    | Some (sx, sy), Some (ex, ey) =>
        let x1 := Z.min sx ex in
        let x2 := Z.max sx ex in
        let y1 := Z.min sy ey in
        let y2 := Z.max sy ey in
        if selection_complete_callback s then Some (x1, y1, x2, y2)
        else None
    | _, _ => None
    end
  else None.

Inductive mouse : Type :=
| Press (pos : QPoint)
| Move (pos : QPoint)
| Release (pos : QPoint).

Definition mouse_event (e : mouse) (s : t) : t :=
  match e with
  | Press p => mousePressEvent p s
  | Move p => mouseMoveEvent p s
  | Release p => mouseReleaseEvent p s
  end.

Definition mouse_events (es : list mouse) (s : t) : t :=
  fold_left (fun acc e => mouse_event e acc) es s.

End ScreenDimensionSelector.

(** ** The handlers of the main window: [LEDControllerUI] of [main.py] *)

Module MainWindow.

Import LEDControllerUI.




Definition set_selected_button (b : option string) (s : t) : t :=
  mk (conn s) (visualizer s) (screen_responsive s) (R s) (G s) (B s) b.







(** The texts of the buttons of the pattern tab. *)
Definition patterns : list string :=
  [ "Fade"; "Cycle"; "Rainbow Cycle"; "Breathing"; "Random" ]%string.

(** [select_pattern].  A button is known by its text, the five texts being
    distinct; [is_checked] is what [clicked_button.isChecked()] returns. *)
Definition select_pattern (clicked_button : string) (is_checked : bool)
  : M t unit :=
  sel <- gets selected_button ;;
  let same :=
    match sel with
    | Some b => String.eqb clicked_button b
    | None => false
    end in
  if same then ret tt
  else
    modify (set_selected_button
              (if is_checked then Some clicked_button else None)) ;;;
    on_conn (SerialConnection.set_mode clicked_button).

(** [self.screen_responsive.<method>()] for a method that only touches the
    engine. *)
Definition on_engine {A} (m : M ScreenResponsive.t A) : M t A :=
  on_screen (ScreenResponsive.on_self m).

Definition update_capturing_label (x1 y1 x2 y2 : Z) : M t unit :=
  on_engine (ScreenResponsive.select_snapshot x1 y1 (x2 - x1) (y2 - y1)).

Definition clear_capturing_label : M t unit :=
  on_engine ScreenResponsive.clear_snapshot.

Definition start_screen_capture : M t unit :=
  on_engine ScreenResponsive.start.

Definition stop_screen_capture : M t unit :=
  on_screen ScreenResponsive.stop.

(** [confirm_selection] of the selector, with [update_capturing_label] as
    its callback. *)
Definition confirm_selection (sel : ScreenDimensionSelector.t) : M t unit :=
  match ScreenDimensionSelector.selection_complete sel with
  | Some (x1, y1, x2, y2) => update_capturing_label x1 y1 x2 y2
  | None => ret tt
  end.

(** The selector as [open_screen_dimension_selector] leaves it: a new
    one, with [update_capturing_label] as its callback. *)
Definition open_screen_dimension_selector : ScreenDimensionSelector.t :=
  ScreenDimensionSelector.mk None None false true.




(** The box of the next capture. *)
Definition capture_box (s : t) : option (Z * Z * Z * Z) :=
  match screen_responsive s with
  | Some sr => ScreenLoop.grab_bbox sr
  | None => None
  end.

(** The window with the three actions of its options menu; a flag tells
    whether the action is enabled. *)
Record menu : Type := mk_menu {
  ui : t;
  connect_action : bool;
  disconnect_action : bool;
  reconnect_action : bool
}.

Definition on_ui {A} (m : M t A) : M menu A :=
  zoom ui (fun u w => mk_menu u (connect_action w) (disconnect_action w)
                              (reconnect_action w)) m.

Definition update_menu_actions : M menu unit :=
  modify (fun w =>
            if SerialConnection.link_open (conn (ui w))
            then mk_menu (ui w) false true true
            else mk_menu (ui w) true false false).

Definition connect_conn (env_ok : bool) : M menu unit :=
  on_ui (on_conn (SerialConnection.connect env_ok)) ;;;
  update_menu_actions.

Definition disconnect_conn : M menu unit :=
  on_ui (on_conn SerialConnection.disconnect) ;;;
  update_menu_actions.

Definition reconnect_conn (env_ok : bool) : M menu unit :=
  on_ui (on_conn (SerialConnection.reconnect env_ok)) ;;;
  update_menu_actions.

(** [SettingsWindow.update_settings], with the port and the baud rate
    read from the two dropdowns: the settings window holds the connection
    object of the main window. *)
Definition settings_update (port : string) (baudrate : Z) (env_ok : bool)
  : M menu unit :=
  on_ui (on_conn (SerialConnection.update_settings port baudrate env_ok)).

(** The menu shows the state of the link. *)
Definition menu_consistent (w : menu) : Prop :=
  connect_action w = negb (SerialConnection.link_open (conn (ui w))) /\
  disconnect_action w = SerialConnection.link_open (conn (ui w)) /\
  reconnect_action w = SerialConnection.link_open (conn (ui w)).

End MainWindow.

(** ** The list of ports: [get_ports] and its use by [SettingsWindow] *)

Module Ports.

(** A [dict] from strings to strings, in insertion order. *)
Definition dict : Type := list (string * string).

(** [d[k] = v]: an existing key keeps its place and takes the new value. *)
Fixpoint setitem (k v : string) (d : dict) : dict :=
  match d with
  | [] => [(k, v)]
  | (k', v') :: rest =>
      if String.eqb k k' then (k', v) :: rest
      else (k', v') :: setitem k v rest
  end.

Inductive KeyError : Type := key_error (key : string).

(** [d[k]] *)
Fixpoint getitem (k : string) (d : dict) : KeyError + string :=
  match d with
  | [] => inl (key_error k)
  | (k', v) :: rest => if String.eqb k k' then inr v else getitem k rest
  end.

(** [get_ports]: the comprehension over [comports()], each entry given by
    its [device] and its [description]. *)
Definition get_ports (comports : list (string * string)) : dict :=
  fold_left (fun d p => setitem (fst p) (snd p) d) comports [].

(** The port dropdown as [SettingsWindow.__init__] fills it: one item per
    port, with the description as text and the device as data, and the
    text [ports[self.conn.port]] that is then made current. *)
Definition port_dropdown (comports : list (string * string))
           (c : SerialConnection.t)
  : KeyError + (list (string * string) * string) :=
  let ports := get_ports comports in
  let items := map (fun p => (snd p, fst p)) ports in
  match getitem (SerialConnection.port c) ports with
  | inl e => inl e
  | inr text => inr (items, text)
  end.

End Ports.

(** ** Well-formed frames *)

Module Frame.

(** The three commands of the wire format: a tag and a payload of fixed
    width, with every value in range. *)
Definition well_formed (f : list Z) : bool :=
  match f with
  | [1; v] => (v =? 0) || (v =? 1)
  | [2; code] => (0 <=? code) && (code <=? 5)
  | [3; r; g; b] => is_byte r && is_byte g && is_byte b
  | _ => false
  end.

End Frame.

(** ** Notions used by the further properties *)

Module Notions.


(** [res] is the outcome of a command that returned normally on an open
    link and appended the one frame [f], changing nothing else. *)
Definition wrote (res : (exn + unit) * SerialConnection.t)
           (s : SerialConnection.t) (f : list Z) : Prop :=
  SerialConnection.link_open s = true /\ fst res = inr tt /\
  SerialConnection.link_open (snd res) = true /\
  SerialConnection.wire (snd res) = SerialConnection.wire s ++ [f] /\
  (SerialConnection.port (snd res), SerialConnection.baudrate (snd res),
   SerialConnection.stop_thread (snd res), SerialConnection.debug (snd res),
   SerialConnection.thread (snd res))
  = (SerialConnection.port s, SerialConnection.baudrate s,
     SerialConnection.stop_thread s, SerialConnection.debug s,
     SerialConnection.thread s).

(** The attributes of the audio engine that no method assigns after the
    constructor. *)
Definition config (s : AudioVisualizer.t) : Z * Z * Q * Q * Z :=
  (AudioVisualizer.CHUNK s, AudioVisualizer.RATE s,
   AudioVisualizer.FADE_THRESHOLD s, AudioVisualizer.NOISE_GATE_THRESHOLD s,
   AudioVisualizer.DECAY_TIME s).

(** No current level is negative. *)
Definition levels_nonneg (s : AudioVisualizer.t) : Prop :=
  (0 <= AudioVisualizer.current_bass s /\
   0 <= AudioVisualizer.current_mid s /\
   0 <= AudioVisualizer.current_treble s)%Q.

(** The three current levels are zero and the three maxima are as the
    constructor set them. *)
Definition silent (s : AudioVisualizer.t) : Prop :=
  (AudioVisualizer.current_bass s == 0 /\
   AudioVisualizer.current_mid s == 0 /\
   AudioVisualizer.current_treble s == 0)%Q /\
  (AudioVisualizer.max_bass s, AudioVisualizer.max_mid s,
   AudioVisualizer.max_treble s) = (1%Q, 1%Q, 1%Q).

(** A tick none of whose bands passes the noise gate of the constructor,
    or a lifecycle call. *)
Definition quiet (e : AudioVisualizer.event) : Prop :=
  match e with
  | AudioVisualizer.Tick b m tr =>
      (b <= 2 # 100 /\ m <= 2 # 100 /\ tr <= 2 # 100)%Q
  | _ => True
  end.





(** The description that a later entry of the list gives to a device
    replaces the one of an earlier entry. *)
Fixpoint last_description (k : string) (comports : list (string * string))
  : option string :=
  match comports with
  | [] => None
  | (dev, desc) :: rest =>
      match last_description k rest with
      | Some v => Some v
      | None => if String.eqb k dev then Some desc else None
      end
  end.

End Notions.

Import Notions.

(** ** What the specification says, where it is compared with the code *)

Module Spec.

Local Open Scope Q_scope.

(** [round(x)] of Python 3: to the nearest integer, ties to the even one. *)
Definition round (x : Q) : Z :=
  let f := Qfloor x in
  let r := x - inject_Z f in
  if Qle_bool r (1 # 2)
  then if Qle_bool (1 # 2) r
       then (if Z.even f then f else f + 1)%Z
       else f
  else (f + 1)%Z.

(** Section 4.2, step 8: [0] if the level is at most [0.05], else
    [round(min_rgb + (255 - min_rgb) * level * channel_multiplier)] clamped
    to [0, 255].  The rounding is a parameter, so that the mapping can be
    stated with [round] and with the rounding the code applies. *)
Definition channel (rounding : Q -> Z) (level multiplier : Q) (min_rgb : Z)
  : Z :=
  if Qle_bool level (5 # 100) then 0%Z
  else
    Z.max 0 (Z.min 255
      (rounding (inject_Z min_rgb
                 + inject_Z (255 - min_rgb) * level * multiplier))).

(** Bass with multiplier [1.2], mid and treble with multiplier [1.0]. *)
Definition rgb (rounding : Q -> Z) (bass_level mid_level treble_level : Q)
  : Z * Z * Z :=
  (channel rounding bass_level (12 # 10) 25,
   channel rounding mid_level 1 25,
   channel rounding treble_level 1 25).

(** Section 4.2, step 4: the decay amount [1 / (sample_rate * decay_seconds)]. *)
Definition decay_amount (sample_rate decay_seconds : Z) : Q :=
  1 / inject_Z (sample_rate * decay_seconds).

End Spec.

(** ** Invariants and abbreviations used by the proofs *)

Module Invariants.

(** What every sequence of calls on the connection preserves: the class
    attribute is never bound, and a thread attribute exists only on a
    connection that has a transport object. *)
Definition shutdown_inv (w : SerialConnection.Class * SerialConnection.t)
  : Prop :=
  SerialConnection._instance (fst w) = None /\
  (SerialConnection.thread (snd w) <> None ->
   SerialConnection.arduino (snd w) <> None).

(** The three gate and decay steps of a tick, in the order of the code. *)
Definition gates (decay b m tr : Q) (s : AudioVisualizer.t)
  : AudioVisualizer.t :=
  AudioVisualizer.gate_treble decay tr
    (AudioVisualizer.gate_mid decay m
       (AudioVisualizer.gate_bass decay b s)).

(** A band is calibrated when its current level does not exceed its running
    maximum and the running maximum is at least its initial value. *)
Definition band_ok (current maxi : Q) : Prop :=
  (current <= maxi /\ 1 <= maxi)%Q.

Definition engine_ok (s : AudioVisualizer.t) : Prop :=
  band_ok (AudioVisualizer.current_bass s) (AudioVisualizer.max_bass s) /\
  band_ok (AudioVisualizer.current_mid s) (AudioVisualizer.max_mid s) /\
  band_ok (AudioVisualizer.current_treble s) (AudioVisualizer.max_treble s).

(** The running maxima of [s] are at most those of [s']. *)
Definition max_le (s s' : AudioVisualizer.t) : Prop :=
  (AudioVisualizer.max_bass s <= AudioVisualizer.max_bass s' /\
   AudioVisualizer.max_mid s <= AudioVisualizer.max_mid s' /\
   AudioVisualizer.max_treble s <= AudioVisualizer.max_treble s')%Q.

End Invariants.

Import Invariants.

(** ** Sample objects used by the examples *)

Module Samples.

(** A connection whose link has just been opened. *)
Definition open_conn : SerialConnection.t :=
  SerialConnection.set_arduino (Some Serial.open_new)
    (SerialConnection.__init__ "COM11" 9600 false).

(** A window whose link is open, with the colour (10, 20, 30) on the
    sliders and the two engines in the given run states. *)
Definition window (audio_on screen_on : bool) : LEDControllerUI.t :=
  {| LEDControllerUI.conn :=
       SerialConnection.set_arduino (Some Serial.open_new)
         (SerialConnection.__init__ "COM11" 9600 false);
     LEDControllerUI.visualizer :=
       Some (AudioVisualizer.set_lifecycle audio_on audio_on audio_on
               AudioVisualizer.default);
     LEDControllerUI.screen_responsive :=
       Some (ScreenResponsive.set_running screen_on
               (ScreenResponsive.__init__ 10));
     LEDControllerUI.R := 10; LEDControllerUI.G := 20;
     LEDControllerUI.B := 30;
     LEDControllerUI.selected_button := Some "Fade"%string |}.

End Samples.

Import Samples.

(** * Device link *)

Module DeviceLink.

Import SerialConnection.

Lemma link_open_inv (s : t) :
  link_open s = true ->
  exists a, arduino s = Some a /\ Serial.is_open a = true.
Proof.
  unfold link_open. destruct (arduino s) as [a|]; [ | discriminate ].
  intros H. exists a. split; [ reflexivity | exact H ].
Qed.

Lemma link_closed_iff (s : t) :
  link_open s = false <->
  (arduino s = None \/
   exists a, arduino s = Some a /\ Serial.is_open a = false).
Proof.
  unfold link_open. destruct (arduino s) as [a|]; split.
  - intros H. right. exists a. split; [ reflexivity | exact H ].
  - intros [H | [a' [H1 H2]]]; [ discriminate | ].
    injection H1 as ->. exact H2.
  - intros _. left. reflexivity.
  - reflexivity.
Qed.

(** A write on an open link appends exactly one entry to the log and
    changes nothing else. *)
Lemma arduino_write_open (s : t) (data : list Z) :
  link_open s = true ->
  exists a,
    arduino s = Some a /\
    arduino_write data s =
      (inr tt,
       set_arduino
         (Some {| Serial.is_open := true;
                  Serial.written := Serial.written a ++ [data] |}) s).
Proof.
  intros H. destruct (link_open_inv s H) as [a [Ha Hop]].
  exists a. split; [ exact Ha | ].
  unfold arduino_write, zoom, Serial.write. rewrite Ha, Hop. reflexivity.
Qed.

Lemma wire_after_write (s : t) (a : Serial.t) (data : list Z) :
  arduino s = Some a ->
  wire (set_arduino
          (Some {| Serial.is_open := true;
                   Serial.written := Serial.written a ++ [data] |}) s)
  = wire s ++ [data].
Proof.
  intros Ha. unfold wire. rewrite Ha. reflexivity.
Qed.

Ltac enter_open H :=
  unfold send_color, set_mode, send_timeout, bind, gets;
  rewrite H; cbn [negb].

Ltac enter_closed H :=
  unfold send_color, set_mode, send_timeout, bind, gets, ret;
  rewrite H; reflexivity.

Lemma bytes_ok {St} (l : list Z) (s : St) :
  forallb is_byte l = true -> bytes l s = (inr l, s).
Proof. intros H. unfold bytes. rewrite H. reflexivity. Qed.

Lemma bytes_bad {St} (l : list Z) (s : St) :
  forallb is_byte l = false -> bytes l s = (inl ValueError, s).
Proof. intros H. unfold bytes. rewrite H. reflexivity. Qed.

Lemma is_byte_iff (z : Z) : is_byte z = true <-> 0 <= z <= 255.
Proof. unfold is_byte. lia. Qed.

(** C3.  On an open link, [send_color r g b] with the three values in
    [0, 255] returns normally and adds exactly one write to the log of the
    transport, the four bytes [0x03, r, g, b]; the link stays open and no
    other attribute of the connection changes. *)
Theorem send_color_encoding (s : t) (r g b : Z) :
  link_open s = true ->
  0 <= r <= 255 -> 0 <= g <= 255 -> 0 <= b <= 255 ->
  exists s',
    send_color r g b s = (inr tt, s') /\
    wire s' = wire s ++ [[3; r; g; b]] /\
    link_open s' = true /\
    (port s', baudrate s', stop_thread s', debug s', thread s')
    = (port s, baudrate s, stop_thread s, debug s, thread s).
Proof.
  intros Hopen Hr Hg Hb.
  destruct (arduino_write_open s [3; r; g; b] Hopen) as [a [Ha Hw]].
  eexists. split; [ | split; [ | split ] ].
  - enter_open Hopen. rewrite bytes_ok.
    + exact Hw.
    + cbn [forallb].
      apply is_byte_iff in Hr, Hg, Hb. rewrite Hr, Hg, Hb. reflexivity.
  - apply wire_after_write. exact Ha.
  - reflexivity.
  - reflexivity.
Qed.

Lemma send_color_encoding_witness :
  exists s',
    send_color 255 0 128
      (set_arduino (Some Serial.open_new) (__init__ "COM11" 9600 false))
    = (inr tt, s') /\
    wire s' = [[3; 255; 0; 128]].
Proof.
  destruct (send_color_encoding
              (set_arduino (Some Serial.open_new) (__init__ "COM11" 9600 false))
              255 0 128) as [s' [H1 [H2 _]]];
    [ reflexivity | lia | lia | lia | ].
  exists s'. split; [ exact H1 | exact H2 ].
Defined.


(** C4.  On an open link, [set_mode] with one of the seven known names
    returns normally and adds exactly one write, the two bytes
    [0x02, code], with the codes OFF=0, Solid=0, Fade=1, Cycle=2,
    Rainbow Cycle=3, Breathing=4, Random=5; with any other name it returns
    normally and leaves the connection, hence the log, as it was, whether
    the link is open or not. *)
Theorem set_mode_encoding (s : t) :
  link_open s = true ->
  (forall name code,
      In (name, code)
         [ ("OFF", 0); ("Solid", 0); ("Fade", 1); ("Cycle", 2);
           ("Rainbow Cycle", 3); ("Breathing", 4); ("Random", 5) ]%string ->
      exists s',
        set_mode name s = (inr tt, s') /\
        wire s' = wire s ++ [[2; code]] /\
        link_open s' = true) /\
  (forall name s0,
      ~ In name [ "OFF"; "Solid"; "Fade"; "Cycle"; "Rainbow Cycle";
                  "Breathing"; "Random" ]%string ->
      set_mode name s0 = (inr tt, s0)).
Proof.
  intros Hopen. split.
  - intros name code Hin.
    destruct (arduino_write_open s [2; code] Hopen) as [a [Ha Hw]].
    eexists. split; [ | split ].
    + enter_open Hopen.
      cbn [In] in Hin.
      repeat (destruct Hin as [Hin | Hin];
              [ injection Hin as <- <-; cbn; exact Hw | ]).
      contradiction.
    + apply wire_after_write. exact Ha.
    + reflexivity.
  - intros name s0 Hnot.
    unfold set_mode, bind, gets.
    destruct (link_open s0); cbn [negb]; [ | reflexivity ].
    assert (Hl : lookup name modes = None).
    { unfold modes. cbn [lookup].
      repeat match goal with
             | |- context [String.eqb name ?k] =>
                 destruct (String.eqb_spec name k) as [-> | _];
                 [ exfalso; apply Hnot; cbn; tauto | ]
             end.
      reflexivity. }
    rewrite Hl. reflexivity.
Qed.

Lemma set_mode_encoding_witness :
  (exists s',
      set_mode "Rainbow Cycle"
        (set_arduino (Some Serial.open_new) (__init__ "COM11" 9600 false))
      = (inr tt, s') /\
      wire s' = [[2; 3]]) /\
  set_mode "Strobe"
    (set_arduino (Some Serial.open_new) (__init__ "COM11" 9600 false))
  = (inr tt,
     set_arduino (Some Serial.open_new) (__init__ "COM11" 9600 false)).
Proof.
  destruct (set_mode_encoding
              (set_arduino (Some Serial.open_new) (__init__ "COM11" 9600 false))
              eq_refl) as [Hknown Hunknown].
  split.
  - destruct (Hknown "Rainbow Cycle"%string 3) as [s' [H1 [H2 _]]].
    + cbn. tauto.
    + exists s'. split; [ exact H1 | exact H2 ].
  - apply Hunknown. cbn. intros H.
    repeat (destruct H as [H | H]; [ discriminate H | ]). exact H.
Defined.

(** C5.  While the link is not open (there is no transport object, or the
    transport is closed), [send_timeout], [set_mode] and [send_color] return
    normally, whatever their arguments, and leave the connection untouched:
    nothing is written and nothing is raised. *)
Theorem closed_link_drops_commands (s : t) :
  (arduino s = None \/
   exists a, arduino s = Some a /\ Serial.is_open a = false) ->
  (forall enabled, send_timeout enabled s = (inr tt, s)) /\
  (forall mode, set_mode mode s = (inr tt, s)) /\
  (forall red green blue, send_color red green blue s = (inr tt, s)).
Proof.
  intros H. apply link_closed_iff in H.
  split; [ | split ]; intros; enter_closed H.
Qed.

Lemma closed_link_drops_commands_witness :
  send_timeout true (__init__ "COM11" 9600 false)
  = (inr tt, __init__ "COM11" 9600 false) /\
  set_mode "Fade" (__init__ "COM11" 9600 false)
  = (inr tt, __init__ "COM11" 9600 false) /\
  send_color 300 (-1) 0 (__init__ "COM11" 9600 false)
  = (inr tt, __init__ "COM11" 9600 false).
Proof.
  destruct (closed_link_drops_commands (__init__ "COM11" 9600 false))
    as [H1 [H2 H3]].
  - left. reflexivity.
  - split; [ apply H1 | split; [ apply H2 | apply H3 ] ].
Defined.

(** C10.  On an open link, [send_color] with a value outside [0, 255]
    raises [ValueError] from the construction of the bytes: the connection
    is left as it was, so nothing is written, and no value is clamped. *)
Theorem send_color_out_of_range (s : t) (r g b : Z) :
  link_open s = true ->
  (r < 0 \/ 255 < r) \/ (g < 0 \/ 255 < g) \/ (b < 0 \/ 255 < b) ->
  send_color r g b s = (inl ValueError, s).
Proof.
  intros Hopen Hbad. enter_open Hopen. rewrite bytes_bad; [ reflexivity | ].
  cbn [forallb]. unfold is_byte. cbn.
  destruct Hbad as [H | [H | H]].
  - replace ((0 <=? r) && (r <? 256)) with false by lia. reflexivity.
  - replace ((0 <=? g) && (g <? 256)) with false by lia.
    apply andb_false_r.
  - replace ((0 <=? b) && (b <? 256)) with false by lia.
    rewrite andb_false_l. repeat rewrite andb_false_r. reflexivity.
Qed.

Lemma send_color_out_of_range_witness :
  send_color 256 0 0
    (set_arduino (Some Serial.open_new) (__init__ "COM11" 9600 false))
  = (inl ValueError,
     set_arduino (Some Serial.open_new) (__init__ "COM11" 9600 false)).
Proof.
  apply send_color_out_of_range; [ reflexivity | left; right; lia ].
Defined.

(** *** Shutdown *)

Ltac crush_call :=
  repeat match goal with
         | |- context [match ?x with _ => _ end] =>
             match type of x with
             | bool => destruct x eqn:?
             | option _ => destruct x eqn:?
             | Thread => destruct x eqn:?
             | Serial.t => destruct x eqn:?
             end; cbn in *
         end.

Ltac unfold_calls :=
  unfold perform, close, on_self, on_class, update_settings, reconnect,
    connect, disconnect, send_timeout, set_mode, send_color, start_thread,
    thread_join, arduino_close, arduino_write, del_instance,
    bytes, zoom, bind, gets, modify, raise, ret,
    Serial.write, Serial.close, link_open in *;
  cbn in *.

Lemma perform_keeps_inv (c : call) (w : Class * t) :
  shutdown_inv w -> shutdown_inv (snd (perform c w)).
Proof.
  destruct w as [k s]. unfold shutdown_inv. cbn [fst snd].
  intros [Hk Ht].
  destruct s as [ard p bd st dbg th]. cbn in Hk, Ht.
  destruct c; unfold_calls; crush_call;
    (split; [ assumption || reflexivity | ]);
    try (intros _; discriminate);
    try (intros H; exfalso; apply H; reflexivity);
    try assumption;
    try (intros H; apply Ht in H; congruence);
    try (intros _; destruct ard; cbn in *; congruence);
    try (exfalso; apply Ht; [ discriminate | reflexivity ]).
Qed.

Lemma run_keeps_inv (cs : list call) (w : Class * t) :
  shutdown_inv w -> shutdown_inv (run cs w).
Proof.
  revert w. induction cs as [| c cs IH]; intros w Hw; cbn [run].
  - exact Hw.
  - apply IH, perform_keeps_inv, Hw.
Qed.

Lemma perform_keeps_no_thread (c : call) (w : Class * t) :
  is_start_thread c = false ->
  thread (snd w) = None -> thread (snd (snd (perform c w))) = None.
Proof.
  destruct w as [k s]. cbn [snd].
  destruct s as [ard p bd st dbg th]. cbn. intros Hc ->.
  destruct c; try discriminate Hc; unfold_calls; crush_call; reflexivity.
Qed.

Lemma run_keeps_no_thread (cs : list call) (w : Class * t) :
  existsb is_start_thread cs = false ->
  thread (snd w) = None -> thread (snd (run cs w)) = None.
Proof.
  revert w. induction cs as [| c cs IH]; intros w Hcs Hw; cbn [run].
  - exact Hw.
  - cbn [existsb] in Hcs. apply orb_false_iff in Hcs as [Hc Hcs].
    apply IH; [ exact Hcs | ]. apply perform_keeps_no_thread; assumption.
Qed.

Lemma close_without_thread (w : Class * t) :
  thread (snd w) = None ->
  close w = (inl (AttributeError "thread"),
             (fst w, set_stop_thread true (snd w))).
Proof.
  destruct w as [k s]. cbn [fst snd].
  destruct s as [ard p bd st dbg th]. cbn. intros ->.
  reflexivity.
Qed.

Lemma close_with_thread (w : Class * t) :
  shutdown_inv w ->
  thread (snd w) <> None ->
  fst (close w) = inl (AttributeError "_instance").
Proof.
  destruct w as [k s]. unfold shutdown_inv. cbn [fst snd].
  destruct s as [ard p bd st dbg th]. destruct k as [i]. cbn.
  intros [-> Ht] Hth. specialize (Ht Hth).
  destruct th as [th|]; [ | contradiction ].
  destruct ard as [a|]; [ | contradiction ].
  reflexivity.
Qed.

(** C9.  Take the class as its definition leaves it and a connection as
    its constructor leaves it, and let a client make any sequence of calls
    on it, going on after whatever they raise.  Then [close] raises
    [AttributeError] and so never returns normally.  If the [thread]
    attribute does not exist, which is so in particular when [start_thread]
    was never called, the error comes from [self.thread.join()], with only
    [stop_thread] set and the transport not closed; otherwise it is the
    error of [del SerialConnection._instance]. *)
Theorem close_always_raises
        (p : string) (bd : Z) (dbg : bool) (cs : list call) :
  let w := run cs (class_def, __init__ p bd dbg) in
  (exists attr, raised (close w) (AttributeError attr)) /\
  ~ returned (close w) /\
  (existsb is_start_thread cs = false -> thread (snd w) = None) /\
  (thread (snd w) = None ->
   close w = (inl (AttributeError "thread"),
              (fst w, set_stop_thread true (snd w)))) /\
  (thread (snd w) <> None ->
   raised (close w) (AttributeError "_instance")).
Proof.
  intros w.
  assert (Hinv : shutdown_inv w).
  { apply run_keeps_inv. split; [ reflexivity | ].
    intros H. exfalso. apply H. reflexivity. }
  assert (Hraise : exists attr, raised (close w) (AttributeError attr)).
  { destruct (thread (snd w)) as [th|] eqn:Hth.
    - exists "_instance"%string. apply close_with_thread; [ exact Hinv | ].
      rewrite Hth. discriminate.
    - exists "thread"%string. unfold raised.
      rewrite (close_without_thread w Hth). reflexivity. }
  split; [ exact Hraise | ].
  split.
  { destruct Hraise as [attr Hr]. intros [a Ha].
    unfold raised in Hr. rewrite Hr in Ha. discriminate Ha. }
  split.
  { intros Hcs. apply run_keeps_no_thread; [ exact Hcs | reflexivity ]. }
  split.
  { apply close_without_thread. }
  { apply close_with_thread. exact Hinv. }
Qed.

Lemma close_always_raises_witness :
  raised
    (close (run [Connect true; SendColor 1 2 3]
                (class_def, __init__ "COM11" 9600 false)))
    (AttributeError "thread") /\
  raised
    (close (run [Connect true; StartThread; SetMode "Fade"]
                (class_def, __init__ "COM11" 9600 false)))
    (AttributeError "_instance").
Proof.
  split.
  - destruct (close_always_raises "COM11" 9600 false
                [Connect true; SendColor 1 2 3]) as [_ [_ [H1 [H2 _]]]].
    unfold raised. rewrite H2; [ reflexivity | ].
    apply H1. reflexivity.
  - destruct (close_always_raises "COM11" 9600 false
                [Connect true; StartThread; SetMode "Fade"])
      as [_ [_ [_ [_ H3]]]].
    apply H3. cbn. discriminate.
Defined.

End DeviceLink.

(** * Audio reactive engine *)

Module AudioEngine.

Import AudioVisualizer.
Local Open Scope Q_scope.

(** *** Comparisons and the Python helpers *)

Lemma Qgt_bool_true (a b : Q) : Qgt_bool a b = true <-> b < a.
Proof.
  unfold Qgt_bool. rewrite negb_true_iff. split.
  - intros H. apply Qnot_le_lt. intros Hle.
    apply Qle_bool_iff in Hle. congruence.
  - intros H. destruct (Qle_bool a b) eqn:E; [ | reflexivity ].
    apply Qle_bool_iff in E. exfalso. exact (Qlt_not_le _ _ H E).
Qed.

Lemma Qgt_bool_false (a b : Q) : Qgt_bool a b = false <-> a <= b.
Proof.
  unfold Qgt_bool. rewrite negb_false_iff. apply Qle_bool_iff.
Qed.

Lemma py_max_cases (a b : Q) :
  (py_max a b = a /\ b <= a) \/ (py_max a b = b /\ a < b).
Proof.
  unfold py_max. destruct (Qgt_bool b a) eqn:E.
  - right. split; [ reflexivity | apply Qgt_bool_true, E ].
  - left. split; [ reflexivity | apply Qgt_bool_false, E ].
Qed.

Lemma py_min_cases (a b : Q) :
  (py_min a b = a /\ a <= b) \/ (py_min a b = b /\ b < a).
Proof.
  unfold py_min. destruct (Qgt_bool a b) eqn:E.
  - right. split; [ reflexivity | apply Qgt_bool_true, E ].
  - left. split; [ reflexivity | apply Qgt_bool_false, E ].
Qed.

(** On a float that is not negative, [int] is the floor. *)
Lemma py_int_floor (x : Q) : 0 <= x -> py_int x = Qfloor x.
Proof.
  destruct x as [n d]. unfold Qle, py_int, Qfloor. cbn. intros H.
  apply Z.quot_div_nonneg; lia.
Qed.

(** *** The decay computed by [update] *)

(** The reciprocal of a non-zero integer is at most one. *)
Lemma inv_int_le_1 (n : Z) : 1 / inject_Z n <= 1.
Proof.
  destruct n as [| p | p]; unfold Qle; cbn; lia.
Qed.

Lemma decay_rate_value {St} (s : t) (st : St) :
  (RATE s * DECAY_TIME s <> 0)%Z ->
  decay_rate s st
  = (inr (1 - 1 / inject_Z (RATE s * DECAY_TIME s)), st).
Proof.
  intros Hn. unfold decay_rate, bind, py_div, ret.
  destruct (Qeq_bool (inject_Z (RATE s * DECAY_TIME s)) 0) eqn:E.
  - apply Qeq_bool_iff in E. unfold Qeq in E. cbn in E. lia.
  - reflexivity.
Qed.

Lemma decay_rate_zero {St} (s : t) (st : St) :
  (RATE s * DECAY_TIME s = 0)%Z ->
  decay_rate s st = (inl ZeroDivisionError, st).
Proof.
  intros Hn. unfold decay_rate, bind, py_div. rewrite Hn. reflexivity.
Qed.


(** *** The engine state after a tick *)

Lemma on_conn_engine {A} (m : M SerialConnection.t A)
      (w : t * SerialConnection.t) :
  fst (snd (on_conn m w)) = fst w.
Proof.
  unfold on_conn, zoom. destruct (m (snd w)). reflexivity.
Qed.

(** A tick either stops at the division of [decay_rate], before anything
    is changed, or performs the three gate steps; what follows them only
    touches the connection. *)
Lemma update_engine (b m tr : Q) (w : t * SerialConnection.t) :
  fst (snd (update b m tr w)) =
  if (RATE (fst w) * DECAY_TIME (fst w) =? 0)%Z then fst w
  else gates (1 - 1 / inject_Z (RATE (fst w) * DECAY_TIME (fst w)))
             b m tr (fst w).
Proof.
  destruct w as [s c]. cbn [fst].
  unfold update. unfold bind at 1. unfold gets at 1. cbn [fst].
  unfold bind at 1.
  destruct (Z.eqb_spec (RATE s * DECAY_TIME s) 0) as [Hz | Hnz].
  - rewrite decay_rate_zero by exact Hz. reflexivity.
  - rewrite decay_rate_value by exact Hnz.
    unfold bind, gets, on_self, zoom, modify, py_div, ret, raise.
    cbn [fst snd].
    fold (gates (1 - 1 / inject_Z (RATE s * DECAY_TIME s)) b m tr s).
    set (s' := gates _ b m tr s).
    repeat match goal with
           | |- context [if ?x then _ else _] => destruct x; cbn [fst snd]
           end;
      try reflexivity;
      match goal with
      | |- context [audio_to_rgb ?x ?y ?z] =>
          destruct (audio_to_rgb x y z) as [[red green] blue]
      end;
      apply (on_conn_engine _ (s', c)).
Qed.


(** *** Calibration: the gate keeps every band below its running maximum *)

Lemma gate_ok (threshold decay level current maxi : Q) :
  0 <= decay ->
  band_ok current maxi ->
  band_ok (fst (gate threshold decay level current maxi))
          (snd (gate threshold decay level current maxi)) /\
  maxi <= snd (gate threshold decay level current maxi).
Proof.
  intros Hd [Hc Hm]. unfold gate, band_ok.
  destruct (Qgt_bool level threshold); cbn [fst snd].
  - destruct (py_max_cases maxi level) as [[-> H] | [-> H]]; lra.
  - destruct (py_max_cases (current - decay) 0) as [[-> H] | [-> H]]; lra.
Qed.

Lemma gate_bass_ok (decay level : Q) (s : t) :
  0 <= decay -> engine_ok s ->
  engine_ok (gate_bass decay level s) /\ max_le s (gate_bass decay level s).
Proof.
  intros Hd (Hb & Hm & Ht). unfold gate_bass.
  pose proof (gate_ok (NOISE_GATE_THRESHOLD s) decay level _ _ Hd Hb) as H.
  destruct (gate _ decay level (current_bass s) (max_bass s)) as [c m'].
  cbn [fst snd] in H. destruct H as [H1 H2].
  unfold engine_ok, max_le, band_ok in *. cbn. repeat split; lra.
Qed.

Lemma gate_mid_ok (decay level : Q) (s : t) :
  0 <= decay -> engine_ok s ->
  engine_ok (gate_mid decay level s) /\ max_le s (gate_mid decay level s).
Proof.
  intros Hd (Hb & Hm & Ht). unfold gate_mid.
  pose proof (gate_ok (NOISE_GATE_THRESHOLD s) decay level _ _ Hd Hm) as H.
  destruct (gate _ decay level (current_mid s) (max_mid s)) as [c m'].
  cbn [fst snd] in H. destruct H as [H1 H2].
  unfold engine_ok, max_le, band_ok in *. cbn. repeat split; lra.
Qed.

Lemma gate_treble_ok (decay level : Q) (s : t) :
  0 <= decay -> engine_ok s ->
  engine_ok (gate_treble decay level s) /\
  max_le s (gate_treble decay level s).
Proof.
  intros Hd (Hb & Hm & Ht). unfold gate_treble.
  pose proof (gate_ok (NOISE_GATE_THRESHOLD s) decay level _ _ Hd Ht) as H.
  destruct (gate _ decay level (current_treble s) (max_treble s)) as [c m'].
  cbn [fst snd] in H. destruct H as [H1 H2].
  unfold engine_ok, max_le, band_ok in *. cbn. repeat split; lra.
Qed.

Lemma max_le_refl (s : t) : max_le s s.
Proof. unfold max_le. repeat split; apply Qle_refl. Qed.

Lemma max_le_trans (s1 s2 s3 : t) :
  max_le s1 s2 -> max_le s2 s3 -> max_le s1 s3.
Proof.
  unfold max_le. intros (A1 & A2 & A3) (B1 & B2 & B3).
  repeat split; eapply Qle_trans; eassumption.
Qed.

Lemma gates_ok (decay b m tr : Q) (s : t) :
  0 <= decay -> engine_ok s ->
  engine_ok (gates decay b m tr s) /\ max_le s (gates decay b m tr s).
Proof.
  intros Hd H0. unfold gates.
  destruct (gate_bass_ok decay b s Hd H0) as [H1 L1].
  destruct (gate_mid_ok decay m _ Hd H1) as [H2 L2].
  destruct (gate_treble_ok decay tr _ Hd H2) as [H3 L3].
  split; [ exact H3 | ].
  eapply max_le_trans; [ exact L1 | ].
  eapply max_le_trans; [ exact L2 | exact L3 ].
Qed.

Lemma update_ok (b m tr : Q) (w : t * SerialConnection.t) :
  engine_ok (fst w) ->
  engine_ok (fst (snd (update b m tr w))) /\
  max_le (fst w) (fst (snd (update b m tr w))).
Proof.
  intros H. rewrite update_engine.
  destruct (RATE (fst w) * DECAY_TIME (fst w) =? 0)%Z.
  - split; [ exact H | apply max_le_refl ].
  - apply gates_ok; [ | exact H ].
    pose proof (inv_int_le_1 (RATE (fst w) * DECAY_TIME (fst w))). lra.
Qed.

Lemma handle_ok (e : event) (w : t * SerialConnection.t) :
  engine_ok (fst w) ->
  engine_ok (fst (snd (handle e w))) /\
  max_le (fst w) (fst (snd (handle e w))).
Proof.
  intros H. destruct e as [b m tr | | ]; cbn [handle].
  - apply update_ok, H.
  - destruct w as [s c]. split; [ exact H | ].
    unfold max_le. cbn. repeat split; apply Qle_refl.
  - destruct w as [s c]. split; [ exact H | ].
    unfold max_le. cbn. repeat split; apply Qle_refl.
Qed.

Lemma run_ok (es : list event) (w : t * SerialConnection.t) :
  engine_ok (fst w) ->
  engine_ok (fst (run es w)) /\ max_le (fst w) (fst (run es w)).
Proof.
  revert w. induction es as [| e es IH]; intros w H; cbn [run].
  - split; [ exact H | apply max_le_refl ].
  - destruct (handle_ok e w H) as [H1 L1].
    destruct (IH _ H1) as [H2 L2].
    split; [ exact H2 | eapply max_le_trans; eassumption ].
Qed.

Lemma run_app (es es' : list event) (w : t * SerialConnection.t) :
  run (es ++ es') w = run es' (run es w).
Proof.
  revert w. induction es as [| e es IH]; intros w; cbn; [ reflexivity | ].
  apply IH.
Qed.

Lemma init_ok (chunk rate : Z) : engine_ok (__init__ chunk rate).
Proof. unfold engine_ok, band_ok. cbn. repeat split; lra. Qed.

Lemma band_ok_ratio (c m : Q) : band_ok c m -> c / m <= 1.
Proof.
  intros [Hc Hm]. apply Qle_shift_div_r; lra.
Qed.

(** C6.  Start from an engine as its constructor leaves it, with any chunk
    size and sample rate, and let it go through any sequence of ticks, with
    any measured levels, and of [start] and [stop] calls.  In the state it
    reaches, the one the normalisation of the last tick read, each band's
    current level divided by its running maximum is at most 1; and whatever
    happens afterwards, no running maximum is ever smaller than it is
    now. *)
Theorem normalisation_bounded
        (chunk rate : Z) (conn : SerialConnection.t) (es es' : list event) :
  let w0 := (__init__ chunk rate, conn) in
  let s := fst (run es w0) in
  let s' := fst (run (es ++ es') w0) in
  (current_bass s / max_bass s <= 1 /\
   current_mid s / max_mid s <= 1 /\
   current_treble s / max_treble s <= 1) /\
  (max_bass s <= max_bass s' /\
   max_mid s <= max_mid s' /\
   max_treble s <= max_treble s').
Proof.
  intros w0 s s'.
  destruct (run_ok es w0 (init_ok chunk rate)) as [(Hb & Hm & Ht) _].
  split.
  - repeat split; apply band_ok_ratio; assumption.
  - subst s s'. rewrite run_app.
    apply run_ok. exact (conj Hb (conj Hm Ht)).
Qed.


(** *** The colour mapping *)

Lemma amplitude_to_rgb_low (level multiplier : Q) (min_rgb : Z) :
  level <= 5 # 100 -> amplitude_to_rgb level multiplier min_rgb = 0%Z.
Proof.
  intros H. unfold amplitude_to_rgb.
  apply Qle_bool_iff in H. rewrite H. reflexivity.
Qed.

Lemma amplitude_to_rgb_high (level multiplier : Q) (min_rgb : Z) :
  5 # 100 < level ->
  amplitude_to_rgb level multiplier min_rgb
  = Z.max 0 (Z.min 255
      (py_int (inject_Z min_rgb
               + (inject_Z (255 - min_rgb) * level) * multiplier))).
Proof.
  intros H. unfold amplitude_to_rgb.
  apply Qgt_bool_true in H. unfold Qgt_bool in H.
  apply negb_true_iff in H. rewrite H. reflexivity.
Qed.


(** The value handed to [int] is positive above the fade threshold. *)
Lemma scaled_pos (level multiplier : Q) :
  0 < level -> 0 <= multiplier ->
  0 <= inject_Z 25 + (inject_Z (255 - 25) * level) * multiplier.
Proof.
  intros Hl Hm.
  assert (H : 0 <= (inject_Z (255 - 25) * level) * multiplier).
  { apply Qmult_le_0_compat; [ | exact Hm ].
    apply Qmult_le_0_compat; [ unfold Qle; cbn; lia | lra ]. }
  assert (H25 : 0 <= inject_Z 25) by (unfold Qle; cbn; lia).
  lra.
Qed.

Lemma scaled_mono (l1 l2 multiplier : Q) :
  0 <= multiplier -> l1 <= l2 ->
  inject_Z 25 + (inject_Z (255 - 25) * l1) * multiplier
  <= inject_Z 25 + (inject_Z (255 - 25) * l2) * multiplier.
Proof.
  intros Hm Hl.
  apply Qplus_le_r.
  apply Qmult_le_compat_r; [ | exact Hm ].
  rewrite !(Qmult_comm (inject_Z (255 - 25))).
  apply Qmult_le_compat_r; [ exact Hl | unfold Qle; cbn; lia ].
Qed.

Lemma amplitude_to_rgb_mono (l1 l2 multiplier : Q) :
  0 <= multiplier -> 5 # 100 < l1 -> l1 <= l2 ->
  (amplitude_to_rgb l1 multiplier 25 <= amplitude_to_rgb l2 multiplier 25)%Z.
Proof.
  intros Hm H1 H12.
  assert (H2 : 5 # 100 < l2) by lra.
  rewrite !amplitude_to_rgb_high by assumption.
  rewrite !py_int_floor by (apply scaled_pos; [ lra | exact Hm ]).
  pose proof (Qfloor_resp_le _ _ (scaled_mono l1 l2 multiplier Hm H12)).
  lia.
Qed.

(** C7, as the code has it.  Each channel of [audio_to_rgb] is [0] for a
    level of at most [0.05] and otherwise
    [min_rgb + (255 - min_rgb) * level * multiplier], with [min_rgb = 25],
    cut down to an integer by [int], which is the floor here, and clamped to
    [0, 255]; the multiplier is [1.2] for bass and [1] for mid and treble.
    This is the mapping of the specification with the floor in the place
    of [round]. *)
Theorem audio_to_rgb_floor (bass_level mid_level treble_level : Q) :
  audio_to_rgb bass_level mid_level treble_level
  = Spec.rgb Qfloor bass_level mid_level treble_level.
Proof.
  assert (H : forall level multiplier,
             0 <= multiplier ->
             amplitude_to_rgb level multiplier 25
             = Spec.channel Qfloor level multiplier 25).
  { intros level multiplier Hm.
    unfold amplitude_to_rgb, Spec.channel.
    destruct (Qle_bool level (5 # 100)) eqn:E; [ reflexivity | ].
    rewrite py_int_floor; [ reflexivity | ].
    apply scaled_pos; [ | exact Hm ].
    assert (5 # 100 < level).
    { apply Qgt_bool_true. unfold Qgt_bool. rewrite E. reflexivity. }
    lra. }
  unfold audio_to_rgb, Spec.rgb.
  rewrite !H by lra. reflexivity.
Qed.

(** C7, as the specification has it, fails: at the mid level [0.125] the
    code sends green [53], the integer part of [53.75], where rounding
    gives [54]. *)
Lemma audio_to_rgb_not_round :
  audio_to_rgb 0 (1 # 8) 0 = (0, 53, 0)%Z /\
  Spec.rgb Spec.round 0 (1 # 8) 0 = (0, 54, 0)%Z /\
  audio_to_rgb 0 (1 # 8) 0 <> Spec.rgb Spec.round 0 (1 # 8) 0.
Proof.
  split; [ reflexivity | ]. split; [ reflexivity | ].
  intros H. discriminate H.
Qed.

(** C8.  Each channel of [audio_to_rgb] depends on its own band only, is
    [0] when the level of the band is at most [0.05], and does not decrease
    when the level grows above [0.05]. *)
Theorem audio_to_rgb_monotone (l1 l2 x y x' y' : Q) :
  let red l := fst (fst (audio_to_rgb l x y)) in
  let green l := snd (fst (audio_to_rgb x l y)) in
  let blue l := snd (audio_to_rgb x y l) in
  (red l1 = fst (fst (audio_to_rgb l1 x' y')) /\
   green l1 = snd (fst (audio_to_rgb x' l1 y')) /\
   blue l1 = snd (audio_to_rgb x' y' l1)) /\
  (l1 <= 5 # 100 -> red l1 = 0%Z /\ green l1 = 0%Z /\ blue l1 = 0%Z) /\
  (5 # 100 < l1 -> l1 <= l2 ->
   (red l1 <= red l2 /\ green l1 <= green l2 /\ blue l1 <= blue l2)%Z).
Proof.
  intros red green blue. subst red green blue.
  unfold audio_to_rgb. cbn [fst snd].
  split; [ repeat split | ]. split.
  - intros H. rewrite !amplitude_to_rgb_low by exact H. repeat split.
  - intros H1 H12.
    repeat split; apply amplitude_to_rgb_mono; (assumption || lra).
Qed.

Lemma audio_to_rgb_monotone_witness :
  (fst (fst (audio_to_rgb (1 # 50) 0 0)) = 0)%Z /\
  (snd (fst (audio_to_rgb 0 (1 # 4) 0))
   <= snd (fst (audio_to_rgb 0 (3 # 4) 0)))%Z.
Proof.
  destruct (audio_to_rgb_monotone (1 # 50) (1 # 50) 0 0 0 0)
    as [_ [Hlow _]].
  destruct (audio_to_rgb_monotone (1 # 4) (3 # 4) 0 0 0 0)
    as [_ [_ Hup]].
  split.
  - apply Hlow. unfold Qle. cbn. lia.
  - apply Hup; [ unfold Qlt; cbn; lia | unfold Qle; cbn; lia ].
Defined.


(** *** A tick returns *)





(** *** The decay of a gated band *)

(** The value that [update] subtracts is the complement to one of the
    amount of the specification. *)
Lemma decay_rate_complement {St} (s : t) (st : St) :
  (RATE s * DECAY_TIME s <> 0)%Z ->
  decay_rate s st
  = (inr (1 - Spec.decay_amount (RATE s) (DECAY_TIME s)), st).
Proof. apply decay_rate_value. Qed.

(** On a tick whose measured bass level does not pass the gate, the bass
    level loses that complement, and is floored at zero.  The mid and the
    treble band are treated by the same [gate]. *)
Lemma gated_bass_decay (b m tr : Q) (w : t * SerialConnection.t) :
  (RATE (fst w) * DECAY_TIME (fst w) <> 0)%Z ->
  b <= NOISE_GATE_THRESHOLD (fst w) ->
  current_bass (fst (snd (update b m tr w)))
  = py_max (current_bass (fst w)
            - (1 - Spec.decay_amount (RATE (fst w)) (DECAY_TIME (fst w))))
           0.
Proof.
  intros Hnz Hb. rewrite update_engine.
  destruct (Z.eqb_spec (RATE (fst w) * DECAY_TIME (fst w)) 0) as [E | _];
    [ contradiction | ].
  unfold gates.
  set (d := 1 - 1 / inject_Z (RATE (fst w) * DECAY_TIME (fst w))).
  assert (Ht : forall l s, current_bass (gate_treble d l s) = current_bass s).
  { intros l s. unfold gate_treble. destruct (gate _ _ _ _ _). reflexivity. }
  assert (Hm : forall l s, current_bass (gate_mid d l s) = current_bass s).
  { intros l s. unfold gate_mid. destruct (gate _ _ _ _ _). reflexivity. }
  rewrite Ht, Hm. unfold gate_bass, gate.
  apply Qgt_bool_false in Hb. rewrite Hb. reflexivity.
Qed.

(** C1 at the constructed values, sample rate 44100 and decay time 1.  A
    tick measuring bass 0.5 sets the current bass level to 0.5.  On the next
    tick, with all three bands below the gate, [update] subtracts
    44099/44100 and the level is floored to 0; the amount of the
    specification, 1/44100, would leave 22049/44100. *)
Theorem decay_at_failing_input :
  let w0 := (default, SerialConnection.__init__ "COM11" 9600 false) in
  let w1 := run [Tick (1 # 2) 0 0] w0 in
  let w2 := run [Tick (1 # 2) 0 0; Tick 0 0 0] w0 in
  (exists d, decay_rate default tt = (inr d, tt) /\ d == 44099 # 44100) /\
  Spec.decay_amount 44100 1 == 1 # 44100 /\
  current_bass (fst w1) == 1 # 2 /\
  current_bass (fst w2) == 0 /\
  current_bass (fst w1) - Spec.decay_amount 44100 1 == 22049 # 44100 /\
  ~ current_bass (fst w2)
    == current_bass (fst w1) - Spec.decay_amount 44100 1.
Proof.
  cbv zeta.
  split.
  { eexists. split; [ vm_compute; reflexivity | vm_compute; reflexivity ]. }
  repeat split; try (vm_compute; reflexivity).
  intros H. vm_compute in H. discriminate H.
Qed.

(** A loud bass tick on an open link: the bass level is adopted, the
    running maximum follows it, and full red is sent. *)
Example loud_bass_tick :
  let w := run [Tick 3 0 0] (default, open_conn) in
  current_bass (fst w) == 3 /\ max_bass (fst w) == 3 /\
  SerialConnection.wire (snd w) = [[3; 255; 0; 0]]%Z.
Proof. cbv zeta. repeat split; vm_compute; reflexivity. Qed.

(** A tick whose three bands stay below the gate sends nothing. *)
Example quiet_tick :
  SerialConnection.wire
    (snd (run [Tick (1 # 100) (1 # 100) 0] (default, open_conn))) = [].
Proof. vm_compute. reflexivity. Qed.

End AudioEngine.

(** * Mode coordinator *)

Module Coordinator.

Import LEDControllerUI.

Ltac unchanged H :=
  cbn [snd]; split; [ exact H | exists []; symmetry; apply app_nil_r ].

(** Each of the three commands of the device link leaves the openness of
    the link as it was and can only add to the log of the transport. *)
Lemma send_timeout_appends (e : bool) (c : SerialConnection.t) :
  SerialConnection.link_open (snd (SerialConnection.send_timeout e c))
  = SerialConnection.link_open c /\
  exists l, SerialConnection.wire (snd (SerialConnection.send_timeout e c))
            = SerialConnection.wire c ++ l.
Proof.
  unfold SerialConnection.send_timeout, bind, gets.
  destruct (SerialConnection.link_open c) eqn:Hopen; cbn [negb].
  - rewrite DeviceLink.bytes_ok by (destruct e; reflexivity).
    destruct (DeviceLink.arduino_write_open
                c [1; if e then 1 else 0]%Z Hopen) as [a [Ha ->]].
    cbn [snd]. split; [ reflexivity | ].
    eexists. apply DeviceLink.wire_after_write. exact Ha.
  - unchanged Hopen.
Qed.

Lemma set_mode_appends (mode : string) (c : SerialConnection.t) :
  SerialConnection.link_open (snd (SerialConnection.set_mode mode c))
  = SerialConnection.link_open c /\
  exists l, SerialConnection.wire (snd (SerialConnection.set_mode mode c))
            = SerialConnection.wire c ++ l.
Proof.
  unfold SerialConnection.set_mode, bind, gets.
  destruct (SerialConnection.link_open c) eqn:Hopen; cbn [negb];
    [ | unchanged Hopen ].
  destruct (SerialConnection.lookup mode SerialConnection.modes)
    as [code |]; [ | unchanged Hopen ].
  unfold bytes. destruct (forallb is_byte [2; code]%Z);
    [ | unchanged Hopen ].
  unfold ret.
  destruct (DeviceLink.arduino_write_open c [2; code]%Z Hopen)
    as [a [Ha ->]].
  cbn [snd]. split; [ reflexivity | ].
  eexists. apply DeviceLink.wire_after_write. exact Ha.
Qed.

Lemma send_color_appends (r g b : Z) (c : SerialConnection.t) :
  SerialConnection.link_open (snd (SerialConnection.send_color r g b c))
  = SerialConnection.link_open c /\
  exists l, SerialConnection.wire (snd (SerialConnection.send_color r g b c))
            = SerialConnection.wire c ++ l.
Proof.
  unfold SerialConnection.send_color, bind, gets.
  destruct (SerialConnection.link_open c) eqn:Hopen; cbn [negb];
    [ | unchanged Hopen ].
  unfold bytes. destruct (forallb is_byte [3; r; g; b]%Z);
    [ | unchanged Hopen ].
  unfold ret.
  destruct (DeviceLink.arduino_write_open c [3; r; g; b]%Z Hopen)
    as [a [Ha ->]].
  cbn [snd]. split; [ reflexivity | ].
  eexists. apply DeviceLink.wire_after_write. exact Ha.
Qed.

(** [set_mode "OFF"]: the two bytes [0x02, 0] on an open link, nothing on
    a closed one; it never raises. *)
Lemma set_mode_off (c : SerialConnection.t) :
  exists c',
    SerialConnection.set_mode "OFF" c = (inr tt, c') /\
    SerialConnection.link_open c' = SerialConnection.link_open c /\
    SerialConnection.wire c'
    = SerialConnection.wire c
      ++ (if SerialConnection.link_open c then [[2; 0]] else []).
Proof.
  unfold SerialConnection.set_mode, bind, gets.
  destruct (SerialConnection.link_open c) eqn:Hopen; cbn [negb].
  - cbn.
    destruct (DeviceLink.arduino_write_open c [2; 0]%Z Hopen)
      as [a [Ha ->]].
    eexists. split; [ reflexivity | ]. split; [ reflexivity | ].
    apply DeviceLink.wire_after_write. exact Ha.
  - exists c. split; [ reflexivity | ]. split; [ exact Hopen | ].
    symmetry. apply app_nil_r.
Qed.


(** [unactiveTab], statement by statement. *)
Lemma unactiveTab_effect (ui : t) :
  exists mid,
    unactiveTab ui = (inr tt, mid) /\
    visualizer_running mid = false /\
    screen_running mid = false /\
    (visualizer_running ui = false -> visualizer mid = visualizer ui) /\
    (screen_running ui = false ->
     screen_responsive mid = screen_responsive ui) /\
    SerialConnection.link_open (conn mid)
    = SerialConnection.link_open (conn ui) /\
    wire mid
    = wire ui
      ++ (if SerialConnection.link_open (conn ui)
          then [2; 0] :: (if screen_running ui then [[2; 0]] else [])
          else []) /\
    (R mid, G mid, B mid, selected_button mid)
    = (R ui, G ui, B ui, selected_button ui).
Proof.
  destruct ui as [c v sr r g b sel].
  unfold unactiveTab, wire.
  unfold bind at 1. unfold on_conn at 1. unfold zoom at 1. cbn [conn].
  destruct (set_mode_off c) as [c1 [E1 [O1 W1]]]. rewrite E1.
  unfold set_conn. cbn [visualizer screen_responsive R G B selected_button].
  unfold bind at 1. unfold gets at 1.
  assert (Hvis :
    exists v1,
      (if visualizer_running (mk c1 v sr r g b sel)
       then on_visualizer AudioVisualizer.stop
       else ret tt) (mk c1 v sr r g b sel)
      = (inr tt, mk c1 v1 sr r g b sel) /\
      visualizer_running (mk c1 v1 sr r g b sel) = false /\
      (visualizer_running (mk c v sr r g b sel) = false -> v1 = v)).
  { unfold visualizer_running. cbn [visualizer].
    destruct v as [av |]; [ destruct (AudioVisualizer.is_running av) eqn:Ev | ].
    - eexists. split; [ reflexivity | ]. split; [ reflexivity | ].
      intros H. discriminate H.
    - exists (Some av). split; [ reflexivity | ]. split; [ exact Ev | ].
      reflexivity.
    - exists None. repeat split. }
  destruct Hvis as [v1 [E2 [V2 K2]]].
  unfold bind at 1. rewrite E2.
  unfold bind at 1. unfold gets at 1.
  unfold screen_running at 1. cbn [screen_responsive].
  destruct sr as [s |]; [ destruct (ScreenResponsive.is_running s) eqn:Es | ].
  - unfold on_screen. cbn [screen_responsive].
    unfold zoom, ScreenResponsive.stop, bind, ScreenResponsive.on_conn,
      ScreenResponsive.on_self, zoom, modify. cbn [fst snd conn].
    destruct (set_mode_off c1) as [c2 [E3 [O3 W3]]]. rewrite E3.
    cbn [fst snd]. unfold set_screen. cbn.
    eexists. split; [ reflexivity | ].
    unfold visualizer_running, screen_running in *. cbn in *.
    rewrite Es.
    split; [ exact V2 | ]. split; [ reflexivity | ].
    split; [ exact K2 | ]. split; [ intros H; discriminate H | ].
    split; [ congruence | ]. split; [ | reflexivity ].
    rewrite W3, W1, O1. destruct (SerialConnection.link_open c).
    + rewrite <- app_assoc. reflexivity.
    + rewrite !app_nil_r. reflexivity.
  - eexists. split; [ reflexivity | ].
    unfold visualizer_running, screen_running in *. cbn in *.
    rewrite Es.
    split; [ exact V2 | ]. split; [ reflexivity | ].
    split; [ exact K2 | ]. split; [ reflexivity | ].
    split; [ exact O1 | ]. split; [ exact W1 | reflexivity ].
  - eexists. split; [ reflexivity | ].
    unfold visualizer_running, screen_running in *. cbn in *.
    split; [ exact V2 | ]. split; [ reflexivity | ].
    split; [ exact K2 | ]. split; [ reflexivity | ].
    split; [ exact O1 | ]. split; [ exact W1 | reflexivity ].
Qed.


Lemma on_conn_effect {A} (m : M SerialConnection.t A) (s : t) :
  (forall c, exists l,
      SerialConnection.wire (snd (m c)) = SerialConnection.wire c ++ l) ->
  visualizer (snd (on_conn m s)) = visualizer s /\
  screen_responsive (snd (on_conn m s)) = screen_responsive s /\
  (R (snd (on_conn m s)), G (snd (on_conn m s)), B (snd (on_conn m s)),
   selected_button (snd (on_conn m s)))
  = (R s, G s, B s, selected_button s) /\
  exists l, wire (snd (on_conn m s)) = wire s ++ l.
Proof.
  intros Hm. unfold on_conn, zoom, wire.
  destruct (Hm (conn s)) as [l Hl].
  destruct (m (conn s)) as [res c']. cbn in *.
  repeat split. exists l. exact Hl.
Qed.

(** The new mode only adds to the log, never touches the screen engine
    and touches the audio engine only when it is the mode being started. *)
Lemma activate_effect (index : Z) (mid : t) :
  screen_responsive (snd (activate index mid)) = screen_responsive mid /\
  (index <> 2 -> visualizer (snd (activate index mid)) = visualizer mid) /\
  exists emitted, wire (snd (activate index mid)) = wire mid ++ emitted.
Proof.
  unfold activate.
  destruct (Z.eqb_spec index 0) as [-> | H0];
    [ | destruct (Z.eqb_spec index 1) as [-> | H1];
        [ | destruct (Z.eqb_spec index 2) as [-> | H2] ] ].
  - destruct (on_conn_effect (SerialConnection.send_timeout false) mid)
      as (V1 & S1 & C1 & [l1 W1]);
      [ intros c; apply send_timeout_appends | ].
    unfold bind, gets.
    destruct (on_conn (SerialConnection.send_timeout false) mid)
      as [[e | []] s1]; cbn [fst snd] in *.
    + split; [ exact S1 | ]. split; [ intros _; exact V1 | ].
      exists l1. exact W1.
    + destruct (on_conn_effect
                  (SerialConnection.send_color (R s1) (G s1) (B s1)) s1)
        as (V2 & S2 & C2 & [l2 W2]);
        [ intros c; apply send_color_appends | ].
      split; [ congruence | ]. split; [ intros _; congruence | ].
      exists (l1 ++ l2). rewrite W2, W1. symmetry. apply app_assoc.
  - destruct (on_conn_effect (SerialConnection.send_timeout false) mid)
      as (V1 & S1 & C1 & [l1 W1]);
      [ intros c; apply send_timeout_appends | ].
    unfold bind, gets.
    destruct (on_conn (SerialConnection.send_timeout false) mid)
      as [[e | []] s1]; cbn [fst snd] in *.
    + split; [ exact S1 | ]. split; [ intros _; exact V1 | ].
      exists l1. exact W1.
    + destruct (selected_button s1) as [text |].
      * destruct (on_conn_effect (SerialConnection.set_mode text) s1)
          as (V2 & S2 & C2 & [l2 W2]);
          [ intros c; apply set_mode_appends | ].
        split; [ congruence | ]. split; [ intros _; congruence | ].
        exists (l1 ++ l2). rewrite W2, W1. symmetry. apply app_assoc.
      * cbn [snd ret]. split; [ exact S1 | ]. split; [ intros _; exact V1 | ].
        exists l1. exact W1.
  - destruct (on_conn_effect (SerialConnection.send_timeout true) mid)
      as (V1 & S1 & C1 & [l1 W1]);
      [ intros c; apply send_timeout_appends | ].
    unfold bind, gets.
    destruct (on_conn (SerialConnection.send_timeout true) mid)
      as [[e | []] s1]; cbn [fst snd] in *.
    + split; [ exact S1 | ]. split; [ intros H; contradiction | ].
      exists l1. exact W1.
    + split; [ | split; [ intros H; contradiction | ] ].
      * unfold on_visualizer. destruct (visualizer s1); cbn; exact S1.
      * exists l1. rewrite <- W1.
        unfold on_visualizer, wire. destruct (visualizer s1); reflexivity.
  - cbn [snd ret]. split; [ reflexivity | ]. split; [ reflexivity | ].
    exists []. symmetry. apply app_nil_r.
Qed.

(** C2.  A tab switch runs [unactiveTab] to its end before anything of the
    new mode: [unactiveTab] returns normally in a state [mid] in which
    neither engine is running, having sent mode OFF first and stopped
    exactly the engines that were running (an engine that was not running
    is left as it was), and [on_tab_changed] is the activation of the new
    mode from [mid].  Every write of the new mode comes after those of
    [unactiveTab]; the screen engine is still stopped at the end of the
    switch, and so is the audio engine unless it is the mode being
    started. *)
Theorem switch_stops_engines_first (index : Z) (ui : t) :
  exists mid,
    unactiveTab ui = (inr tt, mid) /\
    on_tab_changed index ui = activate index mid /\
    visualizer_running mid = false /\
    screen_running mid = false /\
    (visualizer_running ui = false -> visualizer mid = visualizer ui) /\
    (screen_running ui = false ->
     screen_responsive mid = screen_responsive ui) /\
    wire mid
    = wire ui
      ++ (if SerialConnection.link_open (conn ui)
          then [2; 0] :: (if screen_running ui then [[2; 0]] else [])
          else []) /\
    (exists emitted,
        wire (snd (on_tab_changed index ui)) = wire mid ++ emitted) /\
    screen_running (snd (on_tab_changed index ui)) = false /\
    (index <> 2 -> visualizer_running (snd (on_tab_changed index ui)) = false).
Proof.
  destruct (unactiveTab_effect ui)
    as [mid (E & V & S & KV & KS & O & W & _)].
  exists mid.
  assert (Hseq : on_tab_changed index ui = activate index mid).
  { unfold on_tab_changed, bind. rewrite E. reflexivity. }
  destruct (activate_effect index mid) as (S' & V' & Hw).
  rewrite Hseq.
  split; [ exact E | ]. split; [ reflexivity | ].
  split; [ exact V | ]. split; [ exact S | ].
  split; [ exact KV | ]. split; [ exact KS | ].
  split; [ exact W | ]. split; [ exact Hw | ].
  split.
  - unfold screen_running in *. rewrite S'. exact S.
  - intros H. unfold visualizer_running in *. rewrite (V' H). exact V.
Qed.


Lemma switch_stops_engines_first_witness :
  (exists mid,
      unactiveTab (window false true) = (inr tt, mid) /\
      screen_running mid = false /\
      visualizer mid = visualizer (window false true) /\
      wire mid = [[2; 0]; [2; 0]] /\
      visualizer_running (snd (on_tab_changed 0 (window false true)))
      = false) /\
  (exists mid,
      unactiveTab (window true false) = (inr tt, mid) /\
      visualizer_running mid = false /\
      screen_responsive mid = screen_responsive (window true false) /\
      wire mid = [[2; 0]]).
Proof.
  split.
  - destruct (switch_stops_engines_first 0 (window false true))
      as [mid (E & _ & _ & S & KV & _ & W & _ & _ & V')].
    exists mid. split; [ exact E | ]. split; [ exact S | ].
    split; [ apply KV; reflexivity | ]. split; [ exact W | ].
    apply V'. lia.
  - destruct (switch_stops_engines_first 1 (window true false))
      as [mid (E & _ & V & _ & _ & KS & W & _)].
    exists mid. split; [ exact E | ]. split; [ exact V | ].
    split; [ apply KS; reflexivity | exact W ].
Defined.

(** The switch to the solid tab while the screen engine runs: OFF from
    [unactiveTab], OFF from the stop of the screen engine, then the timeout
    and the colour of the new mode. *)
Example switch_to_solid :
  wire (snd (on_tab_changed 0 (window false true)))
  = [[2; 0]; [2; 0]; [1; 0]; [3; 10; 20; 30]].
Proof. reflexivity. Qed.

(** The switch to the audio tab: the timeout is sent, then the engine is
    started. *)
Example switch_to_audio :
  wire (snd (on_tab_changed 2 (window false false))) = [[2; 0]; [1; 1]] /\
  visualizer_running (snd (on_tab_changed 2 (window false false))) = true.
Proof. split; reflexivity. Qed.

End Coordinator.

(** * Further properties of the device link *)

Module LinkLifecycle.

Import SerialConnection.

Ltac unfold_link :=
  unfold update_settings, reconnect, connect, disconnect, start_thread,
    send_timeout, set_mode, send_color, arduino_write, bytes,
    zoom, bind, gets, modify, raise, ret,
    Serial.write, Serial.close, link_open, wire in *;
  cbn in *.

(** X1.  A [connect] that returns normally leaves the link open, and on
    an open link a further [connect] does nothing, whether or not the port
    could be opened again: the transport object and its log are kept. *)
Theorem connect_once (ok ok' : bool) (s : t) :
  fst (connect ok s) = inr tt ->
  link_open (snd (connect ok s)) = true /\
  connect ok' (snd (connect ok s)) = (inr tt, snd (connect ok s)).
Proof.
  destruct s as [[[op wr] |] p bd st dbg th]; destruct ok;
    unfold_link; try destruct op; cbn; intros H;
    try discriminate H; split; reflexivity.
Qed.

Lemma connect_once_witness :
  connect false (snd (connect true (__init__ "COM11" 9600 false)))
  = (inr tt, snd (connect true (__init__ "COM11" 9600 false))).
Proof.
  apply (connect_once true false (__init__ "COM11" 9600 false)).
  reflexivity.
Defined.

(** X2.  [disconnect] never raises.  After it the link is closed and the
    log of the transport is what it was; a second [disconnect] and every
    command sent afterwards change nothing. *)
Theorem disconnect_closes (s : t) :
  exists s',
    disconnect s = (inr tt, s') /\
    link_open s' = false /\
    wire s' = wire s /\
    disconnect s' = (inr tt, s') /\
    (forall e, send_timeout e s' = (inr tt, s')) /\
    (forall m, set_mode m s' = (inr tt, s')) /\
    (forall r g b, send_color r g b s' = (inr tt, s')).
Proof.
  destruct s as [[[op wr] |] p bd st dbg th]; [ destruct op | ];
    eexists; (split; [ unfold_link; reflexivity | ]);
    repeat split; intros; reflexivity.
Qed.



(** *** What a command writes *)

Lemma lookup_modes_range (m : string) (code : Z) :
  lookup m modes = Some code -> 0 <= code <= 5.
Proof.
  unfold modes. cbn [lookup].
  repeat match goal with
         | |- context [String.eqb m ?k] => destruct (String.eqb m k)
         end;
    intros H; inversion H; lia.
Qed.

Lemma wrote_intro (s : t) (a : Serial.t) (f : list Z) :
  link_open s = true -> arduino s = Some a ->
  wrote (inr tt,
         set_arduino
           (Some {| Serial.is_open := true;
                    Serial.written := Serial.written a ++ [f] |}) s) s f.
Proof.
  intros Hopen Ha. unfold wrote. cbn [fst snd].
  split; [ exact Hopen | ]. split; [ reflexivity | ].
  split; [ reflexivity | ].
  split; [ apply DeviceLink.wire_after_write; exact Ha | reflexivity ].
Qed.

Lemma send_timeout_frames (e : bool) (s : t) :
  send_timeout e s = (inr tt, s) \/
  wrote (send_timeout e s) s [1; if e then 1 else 0].
Proof.
  unfold send_timeout, bind, gets.
  destruct (link_open s) eqn:Hopen; cbn [negb]; [ | left; reflexivity ].
  right. rewrite DeviceLink.bytes_ok by (destruct e; reflexivity).
  destruct (DeviceLink.arduino_write_open s [1; if e then 1 else 0] Hopen)
    as [a [Ha ->]].
  apply wrote_intro; assumption.
Qed.

Lemma set_mode_frames (m : string) (s : t) :
  set_mode m s = (inr tt, s) \/
  exists code, lookup m modes = Some code /\ 0 <= code <= 5 /\
               wrote (set_mode m s) s [2; code].
Proof.
  unfold set_mode, bind, gets.
  destruct (link_open s) eqn:Hopen; cbn [negb]; [ | left; reflexivity ].
  destruct (lookup m modes) as [code |] eqn:Hl; [ | left; reflexivity ].
  right. exists code. pose proof (lookup_modes_range m code Hl) as Hc.
  split; [ reflexivity | ]. split; [ exact Hc | ].
  rewrite DeviceLink.bytes_ok.
  - destruct (DeviceLink.arduino_write_open s [2; code] Hopen)
      as [a [Ha ->]].
    apply wrote_intro; assumption.
  - cbn [forallb]. unfold is_byte. cbn.
    replace ((0 <=? code) && (code <? 256)) with true by lia. reflexivity.
Qed.

Lemma send_color_frames (r g b : Z) (s : t) :
  send_color r g b s = (inr tt, s) \/
  (send_color r g b s = (inl ValueError, s) /\
   link_open s = true /\
   ((r < 0 \/ 255 < r) \/ (g < 0 \/ 255 < g) \/ (b < 0 \/ 255 < b))) \/
  ((0 <= r <= 255 /\ 0 <= g <= 255 /\ 0 <= b <= 255) /\
   wrote (send_color r g b s) s [3; r; g; b]).
Proof.
  unfold send_color, bind, gets.
  destruct (link_open s) eqn:Hopen; cbn [negb]; [ | left; reflexivity ].
  right.
  destruct (forallb is_byte [3; r; g; b]) eqn:Hb.
  - right. rewrite DeviceLink.bytes_ok by exact Hb.
    cbn [forallb] in Hb. unfold is_byte in Hb. split; [ lia | ].
    destruct (DeviceLink.arduino_write_open s [3; r; g; b] Hopen)
      as [a [Ha ->]].
    apply wrote_intro; assumption.
  - left. rewrite DeviceLink.bytes_bad by exact Hb.
    split; [ reflexivity | ]. split; [ reflexivity | ].
    cbn [forallb] in Hb. unfold is_byte in Hb. lia.
Qed.




Lemma wrote_well_formed (res : (exn + unit) * t) (s : t) (f : list Z) :
  Frame.well_formed f = true ->
  wrote res s f ->
  Forall (fun f => Frame.well_formed f = true) (wire s) ->
  Forall (fun f => Frame.well_formed f = true) (wire (snd res)).
Proof.
  intros Hf (_ & _ & _ & Hw & _) Hall. rewrite Hw.
  apply Forall_app. split; [ exact Hall | ].
  constructor; [ exact Hf | constructor ].
Qed.

Lemma perform_wire (c : call) (w : Class * t) :
  Forall (fun f => Frame.well_formed f = true) (wire (snd w)) ->
  Forall (fun f => Frame.well_formed f = true)
         (wire (snd (snd (perform c w)))).
Proof.
  destruct w as [k s]. cbn [snd]. intros Hall.
  destruct c; cbn [perform]; unfold on_self, zoom; cbn [fst snd].
  - destruct s as [[[[] wr] |] p bd st dbg th]; destruct env_ok;
      unfold_link; auto.
  - destruct s as [[[[] wr] |] p bd st dbg th]; unfold_link; auto.
  - destruct s as [[[[] wr] |] p bd st dbg th]; destruct env_ok;
      unfold_link; auto.
  - destruct s as [[[[] wr] |] p0 bd st dbg th]; destruct env_ok;
      unfold_link; auto.
  - destruct (send_timeout_frames enabled s) as [E | H].
    + rewrite E. exact Hall.
    + destruct (send_timeout enabled s) as [res s'] eqn:E.
      refine (wrote_well_formed _ _ _ _ H Hall).
      destruct enabled; reflexivity.
  - destruct (set_mode_frames mode s) as [E | (code & _ & Hc & H)].
    + rewrite E. exact Hall.
    + destruct (set_mode mode s) as [res s'] eqn:E.
      refine (wrote_well_formed _ _ _ _ H Hall).
      cbn. lia.
  - destruct (send_color_frames red green blue s)
      as [E | [(E & _) | (Hb & H)]].
    + rewrite E. exact Hall.
    + rewrite E. exact Hall.
    + destruct (send_color red green blue s) as [res s'] eqn:E.
      refine (wrote_well_formed _ _ _ _ H Hall).
      cbn. unfold is_byte. lia.
  - destruct s as [ard p bd st dbg th];
      destruct ard as [[[] wr] |]; destruct th as [[[]] |];
      unfold_link; auto.
  - destruct k as [[[] |]];
      destruct s as [[[op wr] |] p bd st dbg [[al] |]];
      unfold close, on_self, on_class, thread_join, arduino_close,
        del_instance, zoom, bind, gets, modify, raise, Serial.close, wire
        in *;
      cbn in *; auto.
Qed.

(** X5.  Whatever calls are made on a connection, with whatever
    arguments, every write on its transport is one well-formed command: a
    timeout frame with payload 0 or 1, a mode frame with a code from 0 to
    5, or a colour frame with three values in [0, 255]. *)
Theorem wire_well_formed (p : string) (bd : Z) (dbg : bool) (cs : list call) :
  Forall (fun f => Frame.well_formed f = true)
         (wire (snd (run cs (class_def, __init__ p bd dbg)))).
Proof.
  assert (H : forall w,
             Forall (fun f => Frame.well_formed f = true) (wire (snd w)) ->
             Forall (fun f => Frame.well_formed f = true)
                    (wire (snd (run cs w)))).
  { induction cs as [| c cs IH]; intros w Hw; cbn [run].
    - exact Hw.
    - apply IH, perform_wire, Hw. }
  apply H. constructor.
Qed.

(** X6.  On an open link [start_thread] leaves a live reader thread, and
    a second [start_thread] changes nothing: no second thread is started.
    On a link that is not open it does nothing.  It never writes. *)
Theorem start_thread_once (s : t) :
  let s1 := snd (start_thread s) in
  fst (start_thread s) = inr tt /\
  wire s1 = wire s /\
  start_thread s1 = (inr tt, s1) /\
  (if link_open s
   then thread s1 = Some {| alive := true |}
   else s1 = s).
Proof.
  destruct s as [ard p bd st dbg th];
    destruct ard as [[[] wr] |]; destruct th as [[[]] |];
    unfold_link; repeat split; reflexivity.
Qed.

End LinkLifecycle.

(** * Further properties of the audio engine *)

Module AudioTicks.

Import AudioVisualizer AudioEngine.
Local Open Scope Q_scope.

(** What the three gate steps do to each attribute. *)
Lemma gates_fields (d b m tr : Q) (s : t) :
  let th := NOISE_GATE_THRESHOLD s in
  let s' := gates d b m tr s in
  (current_bass s', max_bass s') = gate th d b (current_bass s) (max_bass s) /\
  (current_mid s', max_mid s') = gate th d m (current_mid s) (max_mid s) /\
  (current_treble s', max_treble s')
  = gate th d tr (current_treble s) (max_treble s) /\
  config s' = config s /\
  (running s', stream_active s', ani_active s')
  = (running s, stream_active s, ani_active s).
Proof.
  cbv zeta. unfold gates, gate_treble, gate_mid, gate_bass, config.
  destruct (gate (NOISE_GATE_THRESHOLD s) d b (current_bass s) (max_bass s))
    as [c1 m1] eqn:E1.
  cbn [NOISE_GATE_THRESHOLD set_bass current_mid max_mid].
  destruct (gate (NOISE_GATE_THRESHOLD s) d m (current_mid s) (max_mid s))
    as [c2 m2] eqn:E2.
  cbn [NOISE_GATE_THRESHOLD set_mid current_treble max_treble].
  destruct (gate (NOISE_GATE_THRESHOLD s) d tr (current_treble s)
                 (max_treble s)) as [c3 m3] eqn:E3.
  cbn. rewrite E3. cbn. repeat split.
Qed.

Lemma update_config (b m tr : Q) (w : t * SerialConnection.t) :
  config (fst (snd (update b m tr w))) = config (fst w).
Proof.
  rewrite update_engine.
  destruct (RATE (fst w) * DECAY_TIME (fst w) =? 0)%Z; [ reflexivity | ].
  apply gates_fields.
Qed.

Lemma handle_config (e : event) (w : t * SerialConnection.t) :
  config (fst (snd (handle e w))) = config (fst w).
Proof.
  destruct e as [b m tr | | ]; cbn [handle].
  - apply update_config.
  - destruct w as [s c]. reflexivity.
  - destruct w as [s c]. reflexivity.
Qed.

Lemma run_config (es : list event) (w : t * SerialConnection.t) :
  config (fst (run es w)) = config (fst w).
Proof.
  revert w. induction es as [| e es IH]; intros w; cbn [run];
    [ reflexivity | ].
  rewrite IH. apply handle_config.
Qed.

Lemma run_init_config (chunk rate : Z) (c : SerialConnection.t)
      (es : list event) :
  config (fst (run es (__init__ chunk rate, c)))
  = (chunk, rate, 5 # 100, 2 # 100, 1%Z).
Proof. rewrite run_config. reflexivity. Qed.



Lemma run_init_rate (chunk rate : Z) (c : SerialConnection.t)
      (es : list event) :
  rate <> 0%Z ->
  let s := fst (run es (__init__ chunk rate, c)) in
  (RATE s * DECAY_TIME s <> 0)%Z /\
  NOISE_GATE_THRESHOLD s = 2 # 100 /\ FADE_THRESHOLD s = 5 # 100.
Proof.
  intros Hr s. pose proof (run_init_config chunk rate c es) as H.
  fold s in H. unfold config in H. inversion H as [[H1 H2 H3 H4 H5]].
  repeat split. lia.
Qed.



(** *** The gate of a tick, band by band *)

Lemma gate_open (th d l c mx : Q) :
  th < l -> gate th d l c mx = (l, py_max mx l).
Proof.
  intros H. unfold gate. apply Qgt_bool_true in H. rewrite H. reflexivity.
Qed.

Lemma gate_closed (th d l c mx : Q) :
  l <= th -> gate th d l c mx = (py_max (c - d) 0, mx).
Proof.
  intros H. unfold gate. apply Qgt_bool_false in H. rewrite H. reflexivity.
Qed.

Lemma gate_closed_bounds (th d l c mx : Q) :
  0 <= d -> 0 <= c -> l <= th ->
  0 <= fst (gate th d l c mx) <= c /\ snd (gate th d l c mx) = mx.
Proof.
  intros Hd Hc Hl. rewrite gate_closed by exact Hl. cbn [fst snd].
  split; [ | reflexivity ].
  destruct (py_max_cases (c - d) 0) as [[-> H] | [-> H]]; lra.
Qed.

Lemma gate_nonneg (th d l c mx : Q) :
  0 <= th -> 0 <= fst (gate th d l c mx).
Proof.
  intros Hth. unfold gate. destruct (Qgt_bool l th) eqn:E; cbn [fst].
  - apply Qgt_bool_true in E. lra.
  - destruct (py_max_cases (c - d) 0) as [[-> H] | [-> H]]; lra.
Qed.

Lemma pair_fst {A B} (p : A * B) (a : A) (b : B) : (a, b) = p -> a = fst p.
Proof. intros <-. reflexivity. Qed.

Lemma pair_snd {A B} (p : A * B) (a : A) (b : B) : (a, b) = p -> b = snd p.
Proof. intros <-. reflexivity. Qed.

Lemma update_nonneg (b m tr : Q) (w : t * SerialConnection.t) :
  0 <= NOISE_GATE_THRESHOLD (fst w) ->
  levels_nonneg (fst w) -> levels_nonneg (fst (snd (update b m tr w))).
Proof.
  intros Hth Hn. rewrite update_engine.
  destruct (RATE (fst w) * DECAY_TIME (fst w) =? 0)%Z; [ exact Hn | ].
  set (d := 1 - 1 / inject_Z (RATE (fst w) * DECAY_TIME (fst w))).
  destruct (gates_fields d b m tr (fst w)) as (Hb & Hm & Ht & _).
  unfold levels_nonneg.
  rewrite (pair_fst _ _ _ Hb), (pair_fst _ _ _ Hm), (pair_fst _ _ _ Ht).
  repeat split; apply gate_nonneg; exact Hth.
Qed.

Lemma run_nonneg (es : list event) (w : t * SerialConnection.t) :
  0 <= NOISE_GATE_THRESHOLD (fst w) ->
  levels_nonneg (fst w) -> levels_nonneg (fst (run es w)).
Proof.
  revert w. induction es as [| e es IH]; intros w Hth Hn; cbn [run];
    [ exact Hn | ].
  apply IH.
  - pose proof (handle_config e w) as Hc. unfold config in Hc.
    inversion Hc as [[H1 H2 H3 H4 H5]]. rewrite H4. exact Hth.
  - destruct e as [b m tr | | ]; cbn [handle].
    + apply update_nonneg; assumption.
    + destruct w as [s c]. exact Hn.
    + destruct w as [s c]. exact Hn.
Qed.


(** X8.  In an engine built with a sample rate that is not zero, after
    any ticks and lifecycle calls, no current level is negative, and a
    tick treats each band by its own measured level alone.  Above the gate
    [0.02] the level becomes the current level and the running maximum
    becomes the larger of itself and the level.  At or below the gate the
    current level does not grow and does not fall below zero, and the
    running maximum is left as it is. *)
Theorem tick_gate
        (chunk rate : Z) (conn : SerialConnection.t) (es : list event)
        (b m tr : Q) :
  rate <> 0%Z ->
  let s := fst (run es (__init__ chunk rate, conn)) in
  let s' := fst (snd (update b m tr (run es (__init__ chunk rate, conn)))) in
  levels_nonneg s /\
  (if Qgt_bool b (2 # 100)
   then current_bass s' = b /\ max_bass s' = py_max (max_bass s) b
   else 0 <= current_bass s' <= current_bass s /\ max_bass s' = max_bass s) /\
  (if Qgt_bool m (2 # 100)
   then current_mid s' = m /\ max_mid s' = py_max (max_mid s) m
   else 0 <= current_mid s' <= current_mid s /\ max_mid s' = max_mid s) /\
  (if Qgt_bool tr (2 # 100)
   then current_treble s' = tr /\ max_treble s' = py_max (max_treble s) tr
   else 0 <= current_treble s' <= current_treble s /\
        max_treble s' = max_treble s).
Proof.
  intros Hr s s'.
  destruct (run_init_rate chunk rate conn es Hr) as (Hnz & Hth & _).
  fold s in Hnz, Hth.
  assert (Hn : levels_nonneg s).
  { apply run_nonneg; [ cbn; lra | ]. unfold levels_nonneg. cbn. lra. }
  split; [ exact Hn | ].
  subst s'. rewrite update_engine. fold s.
  destruct (Z.eqb_spec (RATE s * DECAY_TIME s) 0) as [E | _];
    [ contradiction | ].
  set (d := 1 - 1 / inject_Z (RATE s * DECAY_TIME s)).
  assert (Hd : 0 <= d).
  { pose proof (inv_int_le_1 (RATE s * DECAY_TIME s)). subst d. lra. }
  destruct (gates_fields d b m tr s) as (Hb & Hm & Ht & _).
  rewrite Hth in Hb, Hm, Ht.
  destruct Hn as (Nb & Nm & Nt).
  rewrite (pair_fst _ _ _ Hb), (pair_snd _ _ _ Hb),
    (pair_fst _ _ _ Hm), (pair_snd _ _ _ Hm),
    (pair_fst _ _ _ Ht), (pair_snd _ _ _ Ht).
  repeat split.
  - destruct (Qgt_bool b (2 # 100)) eqn:E.
    + apply Qgt_bool_true in E. rewrite gate_open by exact E. split; reflexivity.
    + apply Qgt_bool_false in E. apply gate_closed_bounds; assumption.
  - destruct (Qgt_bool m (2 # 100)) eqn:E.
    + apply Qgt_bool_true in E. rewrite gate_open by exact E. split; reflexivity.
    + apply Qgt_bool_false in E. apply gate_closed_bounds; assumption.
  - destruct (Qgt_bool tr (2 # 100)) eqn:E.
    + apply Qgt_bool_true in E. rewrite gate_open by exact E. split; reflexivity.
    + apply Qgt_bool_false in E. apply gate_closed_bounds; assumption.
Qed.

Lemma tick_gate_witness :
  levels_nonneg (fst (run [Tick (1 # 2) 0 0] (default, Samples.open_conn))).
Proof.
  apply (tick_gate 1024 44100 Samples.open_conn [Tick (1 # 2) 0 0] 0 0 0).
  discriminate.
Defined.


(** *** Silence *)

Lemma silent_gates (d b m tr : Q) (s : t) :
  0 <= d -> NOISE_GATE_THRESHOLD s = 2 # 100 ->
  quiet (Tick b m tr) -> silent s -> silent (gates d b m tr s).
Proof.
  intros Hd Hth (Qb & Qm & Qt) [(Zb & Zm & Zt) Hmax].
  destruct (gates_fields d b m tr s) as (Hb & Hm & Ht & _).
  rewrite Hth in Hb, Hm, Ht.
  rewrite gate_closed in Hb, Hm, Ht by assumption.
  pose proof (pair_fst _ _ _ Hb) as Cb. pose proof (pair_snd _ _ _ Hb) as Xb.
  pose proof (pair_fst _ _ _ Hm) as Cm. pose proof (pair_snd _ _ _ Hm) as Xm.
  pose proof (pair_fst _ _ _ Ht) as Ct. pose proof (pair_snd _ _ _ Ht) as Xt.
  cbn [fst snd] in Cb, Xb, Cm, Xm, Ct, Xt.
  split.
  - rewrite Cb, Cm, Ct. repeat split.
    + destruct (py_max_cases (current_bass s - d) 0) as [[-> H] | [-> H]]; lra.
    + destruct (py_max_cases (current_mid s - d) 0) as [[-> H] | [-> H]]; lra.
    + destruct (py_max_cases (current_treble s - d) 0)
        as [[-> H] | [-> H]]; lra.
  - congruence.
Qed.

Lemma dark_channel (c k f : Q) :
  c == 0 -> 0 <= k -> 0 <= f -> Qgt_bool (py_min (c / 1 * k) 1) f = false.
Proof.
  intros Hc Hk Hf. apply Qgt_bool_false.
  assert (H0 : c / 1 * k == 0).
  { rewrite Hc. reflexivity. }
  destruct (py_min_cases (c / 1 * k) 1) as [[-> H] | [-> H]]; lra.
Qed.

(** A quiet tick on a silent engine sends nothing and leaves it silent. *)
Lemma update_quiet (b m tr : Q) (w : t * SerialConnection.t) :
  NOISE_GATE_THRESHOLD (fst w) = 2 # 100 ->
  FADE_THRESHOLD (fst w) = 5 # 100 ->
  quiet (Tick b m tr) -> silent (fst w) ->
  silent (fst (snd (update b m tr w))) /\
  snd (snd (update b m tr w)) = snd w.
Proof.
  intros Hth Hfade Hq Hs.
  destruct w as [s c]. cbn [fst snd] in *.
  destruct (Z.eqb_spec (RATE s * DECAY_TIME s) 0) as [Hz | Hnz].
  - unfold update, bind, gets. cbn [fst].
    rewrite !decay_rate_zero by exact Hz. split; [ exact Hs | reflexivity ].
  - set (d := 1 - 1 / inject_Z (RATE s * DECAY_TIME s)).
    assert (Hd : 0 <= d).
    { pose proof (inv_int_le_1 (RATE s * DECAY_TIME s)). subst d. lra. }
    pose proof (silent_gates d b m tr s Hd Hth Hq Hs) as Hs'.
    split.
    + rewrite update_engine. cbn [fst].
      destruct (Z.eqb_spec (RATE s * DECAY_TIME s) 0) as [E | _];
        [ contradiction | exact Hs' ].
    + destruct (gates_fields d b m tr s) as (_ & _ & _ & Hc & _).
      unfold config in Hc. inversion Hc as [[K1 K2 Hf' K4 K5]].
      destruct Hs' as [(Zb & Zm & Zt) Hmax].
      pose proof (f_equal (fun p => fst (fst p)) Hmax) as Mb.
      pose proof (f_equal (fun p => snd (fst p)) Hmax) as Mm.
      pose proof (f_equal snd Hmax) as Mt.
      cbn [fst snd] in Mb, Mm, Mt.
      unfold update, bind, gets. cbn [fst].
      rewrite !decay_rate_value by exact Hnz.
      unfold on_self, zoom, modify, py_div, ret, raise. cbn [fst snd].
      fold d. fold (gates d b m tr s).
      rewrite Mb, Mm, Mt, Hf', Hfade.
      change (Qeq_bool 1 0) with false. cbv iota. cbn [fst snd].
      assert (C1 : Qgt_bool (current_bass (gates d b m tr s) / 1)
                            (5 # 100) = false).
      { apply Qgt_bool_false. rewrite Zb. unfold Qle. cbn. lia. }
      rewrite C1, (dark_channel _ (12 # 10) (5 # 100) Zm),
        (dark_channel _ (15 # 10) (5 # 100) Zt); try lra.
      reflexivity.
Qed.

(** X9.  An engine that has only gone through ticks none of whose bands
    passed the noise gate, and through [start] and [stop] calls, has sent
    nothing: the connection is exactly as it was handed over, the three
    current levels are zero and the three maxima are still 1. *)
Theorem quiet_engine_is_dark
        (chunk rate : Z) (conn : SerialConnection.t) (es : list event) :
  Forall quiet es ->
  let w := run es (__init__ chunk rate, conn) in
  snd w = conn /\ silent (fst w).
Proof.
  intros Hq.
  assert (H : forall w,
             NOISE_GATE_THRESHOLD (fst w) = 2 # 100 ->
             FADE_THRESHOLD (fst w) = 5 # 100 ->
             silent (fst w) ->
             snd (run es w) = snd w /\ silent (fst (run es w))).
  { induction Hq as [| e es He _ IH]; intros w Hth Hf Hs; cbn [run].
    - split; [ reflexivity | exact Hs ].
    - pose proof (handle_config e w) as Hc. unfold config in Hc.
      inversion Hc as [[K1 K2 H3 H4 K5]].
      assert (Hstep : silent (fst (snd (handle e w))) /\
                      snd (snd (handle e w)) = snd w).
      { destruct e as [b m tr | | ]; cbn [handle].
        - apply update_quiet; assumption.
        - destruct w as [s c]. split; [ exact Hs | reflexivity ].
        - destruct w as [s c]. split; [ exact Hs | reflexivity ]. }
      destruct Hstep as [Hs1 Hc1].
      destruct (IH (snd (handle e w))) as [IH1 IH2];
        [ congruence | congruence | exact Hs1 | ].
      split; [ congruence | exact IH2 ]. }
  apply (H (__init__ chunk rate, conn)); try reflexivity.
  unfold silent. cbn. repeat split; reflexivity.
Qed.

Lemma quiet_engine_is_dark_witness :
  snd (run [Tick (1 # 100) 0 (2 # 100); Stop; Tick 0 0 0]
           (default, Samples.open_conn))
  = Samples.open_conn.
Proof.
  apply (quiet_engine_is_dark 1024 44100 Samples.open_conn
           [Tick (1 # 100) 0 (2 # 100); Stop; Tick 0 0 0]).
  repeat constructor; unfold Qle; cbn; lia.
Defined.


(** *** The range of a lit channel *)

Lemma floor_ge (n : Z) (x : Q) : inject_Z n <= x -> (n <= Qfloor x)%Z.
Proof.
  intros H. rewrite <- (Qfloor_Z n). apply Qfloor_resp_le. exact H.
Qed.

Lemma lit_channel (level k : Q) (lo : Z) :
  5 # 100 < level -> 0 <= k ->
  inject_Z lo <= inject_Z 25 + inject_Z (255 - 25) * level * k ->
  (Z.min lo 255 <= amplitude_to_rgb level k 25 <= 255)%Z.
Proof.
  intros Hl Hk Hlo. rewrite amplitude_to_rgb_high by exact Hl.
  rewrite py_int_floor by (apply scaled_pos; lra).
  pose proof (floor_ge lo _ Hlo). lia.
Qed.

(** X10.  A channel of [audio_to_rgb] is dark exactly when the level of
    its band is at most [0.05].  A lit channel is never dim: red is at
    least 38, green and blue are at least 36.  Red is full from a bass
    level of 5/6 on; green and blue are full from a level of 1 on. *)
Theorem lit_channels (b m tr : Q) :
  let red := fst (fst (audio_to_rgb b m tr)) in
  let green := snd (fst (audio_to_rgb b m tr)) in
  let blue := snd (audio_to_rgb b m tr) in
  ((red = 0%Z <-> b <= 5 # 100) /\
   (green = 0%Z <-> m <= 5 # 100) /\
   (blue = 0%Z <-> tr <= 5 # 100)) /\
  ((5 # 100 < b -> (38 <= red <= 255)%Z) /\
   (5 # 100 < m -> (36 <= green <= 255)%Z) /\
   (5 # 100 < tr -> (36 <= blue <= 255)%Z)) /\
  ((5 # 6 <= b -> red = 255%Z) /\
   (1 <= m -> green = 255%Z) /\
   (1 <= tr -> blue = 255%Z)).
Proof.
  cbv zeta. unfold audio_to_rgb. cbn [fst snd].
  assert (Hinj : forall z, inject_Z z = z # 1) by reflexivity.
  assert (R38 : 5 # 100 < b -> (38 <= amplitude_to_rgb b (12 # 10) 25 <= 255)%Z).
  { intros H. apply (lit_channel b (12 # 10) 38); [ exact H | lra | ].
    rewrite !Hinj. cbn. lra. }
  assert (G36 : forall l, 5 # 100 < l ->
                          (36 <= amplitude_to_rgb l 1 25 <= 255)%Z).
  { intros l H. apply (lit_channel l 1 36); [ exact H | lra | ].
    rewrite !Hinj. cbn. lra. }
  assert (Hdark : forall l k lo, (0 < lo)%Z ->
            (5 # 100 < l -> (lo <= amplitude_to_rgb l k 25)%Z) ->
            (amplitude_to_rgb l k 25 = 0%Z <-> l <= 5 # 100)).
  { intros l k lo Hlo Hlit. split.
    - intros H0. destruct (Qlt_le_dec (5 # 100) l) as [Hl | Hl];
        [ | exact Hl ].
      specialize (Hlit Hl). lia.
    - apply amplitude_to_rgb_low. }
  split; [ | split ].
  - split; [ | split ].
    + apply (Hdark b _ 38%Z); [ lia | intros H; apply R38, H ].
    + apply (Hdark m _ 36%Z); [ lia | intros H; apply G36, H ].
    + apply (Hdark tr _ 36%Z); [ lia | intros H; apply G36, H ].
  - split; [ exact R38 | split; apply G36 ].
  - split; [ | split ].
    + intros H.
      assert (L : (Z.min 255 255 <= amplitude_to_rgb b (12 # 10) 25 <= 255)%Z).
      { apply lit_channel; [ lra | lra | ]. rewrite !Hinj. cbn. lra. }
      lia.
    + intros H.
      assert (L : (Z.min 255 255 <= amplitude_to_rgb m 1 25 <= 255)%Z).
      { apply lit_channel; [ lra | lra | ]. rewrite !Hinj. cbn. lra. }
      lia.
    + intros H.
      assert (L : (Z.min 255 255 <= amplitude_to_rgb tr 1 25 <= 255)%Z).
      { apply lit_channel; [ lra | lra | ]. rewrite !Hinj. cbn. lra. }
      lia.
Qed.

Lemma lit_channels_witness :
  (38 <= fst (fst (audio_to_rgb (6 # 100) 0 0)) <= 255)%Z /\
  snd (audio_to_rgb 0 0 1) = 255%Z.
Proof.
  destruct (lit_channels (6 # 100) 0 1) as (_ & (Hr & _) & (_ & _ & Hb)).
  split.
  - apply Hr. unfold Qlt. cbn. lia.
  - apply Hb. unfold Qle. cbn. lia.
Defined.

End AudioTicks.

(** * The spectrum helpers *)

Module SpectrumFacts.

Import Spectrum.











(** The bands of the default engine. *)
Example default_bands :
  bass_idx AudioVisualizer.default = inr [1; 2; 3; 4; 5] /\
  (exists l, mid_idx AudioVisualizer.default = inr l /\
             hd 0 l = 6 /\ last l 0 = 92) /\
  (exists l, treble_idx AudioVisualizer.default = inr l /\
             hd 0 l = 93 /\ last l 0 = 464).
Proof.
  split; [ vm_compute; reflexivity | ].
  split; eexists; (split; [ vm_compute; reflexivity | ]);
    split; vm_compute; reflexivity.
Qed.



End SpectrumFacts.

(** * The screen engine and its capture region *)

Module ScreenFacts.

Import ScreenResponsive ScreenLoop.

Lemma send_color_wrote (r g b : Z) (c : SerialConnection.t) :
  SerialConnection.link_open c = true ->
  is_byte r && is_byte g && is_byte b = true ->
  wrote (SerialConnection.send_color r g b c) c [3; r; g; b].
Proof.
  intros Hopen Hb.
  unfold SerialConnection.send_color, bind, gets. rewrite Hopen.
  cbn [negb]. rewrite DeviceLink.bytes_ok.
  - destruct (DeviceLink.arduino_write_open c [3; r; g; b] Hopen)
      as [a [Ha ->]].
    apply LinkLifecycle.wrote_intro; assumption.
  - cbn [forallb]. unfold is_byte in *. lia.
Qed.

Lemma core_loop_open (colors : list (Z * Z * Z))
      (w : t * SerialConnection.t) :
  running (fst w) = true ->
  SerialConnection.link_open (snd w) = true ->
  forallb color_ok colors = true ->
  exists c',
    core_loop colors w = (inr tt, (fst w, c')) /\
    SerialConnection.link_open c' = true /\
    SerialConnection.wire c'
    = SerialConnection.wire (snd w) ++ map color_frame colors.
Proof.
  revert w. induction colors as [| [[r g] b] colors IH];
    intros [s c] Hrun Hopen Hok; cbn [fst snd] in *.
  - exists c. cbn. rewrite app_nil_r. repeat split. exact Hopen.
  - cbn [forallb color_ok] in Hok. apply andb_true_iff in Hok as [Hc Hok].
    pose proof (send_color_wrote r g b c Hopen Hc) as (_ & H1 & H2 & H3 & _).
    cbn [core_loop]. cbn [fst]. rewrite Hrun.
    unfold on_conn, zoom. cbn [snd fst].
    destruct (SerialConnection.send_color r g b c) as [res c1].
    cbn [fst snd] in H1, H2, H3. subst res.
    destruct (IH (s, c1) Hrun H2 Hok) as [c' (E & O & W)].
    cbn [fst snd] in E, W. exists c'.
    split; [ exact E | ]. split; [ exact O | ].
    rewrite W, H3. cbn [map color_frame]. rewrite <- app_assoc. reflexivity.
Qed.

Lemma core_loop_closed (colors : list (Z * Z * Z))
      (w : t * SerialConnection.t) :
  SerialConnection.link_open (snd w) = false ->
  core_loop colors w = (inr tt, w).
Proof.
  intros Hclosed. revert w Hclosed.
  induction colors as [| [[r g] b] colors IH]; intros [s c] Hc;
    cbn [fst snd] in *; [ reflexivity | ].
  cbn [core_loop]. cbn [fst]. destruct (running s); [ | reflexivity ].
  unfold on_conn, zoom. cbn [snd fst].
  unfold SerialConnection.send_color, bind, gets. rewrite Hc. cbn.
  apply (IH (s, c)). exact Hc.
Qed.

(** X14.  [core] never raises and leaves the engine marked as running.
    On an open link it forwards the colours it is given, one colour frame
    each, in their order and with nothing in between, as long as their
    values are bytes; on a link that is not open it leaves the connection
    as it was. *)
Theorem core_forwards (colors : list (Z * Z * Z))
        (w : t * SerialConnection.t) :
  let r := core colors w in
  fst r = inr tt /\
  (SerialConnection.link_open (snd w) = true ->
   forallb color_ok colors = true ->
   running (fst (snd r)) = true /\
   SerialConnection.link_open (snd (snd r)) = true /\
   SerialConnection.wire (snd (snd r))
   = SerialConnection.wire (snd w) ++ map color_frame colors) /\
  (SerialConnection.link_open (snd w) = false ->
   running (fst (snd r)) = true /\ snd (snd r) = snd w).
Proof.
  destruct w as [s c]. cbv zeta. unfold core, bind, on_self, zoom, modify.
  cbn [fst snd].
  split; [ destruct (core_loop colors (set_running true s, c)); reflexivity | ].
  split.
  - intros Hopen Hok.
    destruct (core_loop_open colors (set_running true s, c))
      as [c' (E & O & W)]; [ reflexivity | exact Hopen | exact Hok | ].
    rewrite E. cbn [fst snd] in *. repeat split; assumption.
  - intros Hclosed.
    rewrite (core_loop_closed colors (set_running true s, c) Hclosed).
    split; reflexivity.
Qed.

Lemma core_forwards_witness :
  SerialConnection.wire
    (snd (snd (core [(1, 2, 3); (0, 0, 0)]
                    (__init__ 10, Samples.open_conn))))
  = [[3; 1; 2; 3]; [3; 0; 0; 0]].
Proof.
  destruct (core_forwards [(1, 2, 3); (0, 0, 0)]
              (__init__ 10, Samples.open_conn)) as (_ & H & _).
  destruct H as (_ & _ & H); [ reflexivity | reflexivity | ].
  exact H.
Defined.

(** X15.  [stop] never raises.  It sends mode OFF when the link is open
    and nothing otherwise, clears the running flag and keeps the capture
    region and the frame rate; after it the passes of the loop send
    nothing more, whatever colours they are given. *)
Theorem stop_silences (colors : list (Z * Z * Z))
        (w : t * SerialConnection.t) :
  exists w',
    stop w = (inr tt, w') /\
    running (fst w') = false /\
    (fps (fst w'), snapshot (fst w')) = (fps (fst w), snapshot (fst w)) /\
    SerialConnection.wire (snd w')
    = SerialConnection.wire (snd w)
      ++ (if SerialConnection.link_open (snd w) then [[2; 0]] else []) /\
    core_loop colors w' = (inr tt, w').
Proof.
  destruct w as [s c]. cbn [fst snd].
  destruct (Coordinator.set_mode_off c) as [c' (E & O & W)].
  exists (set_running false s, c').
  split.
  - unfold stop, bind, on_conn, on_self, zoom, modify. cbn [fst snd].
    rewrite E. reflexivity.
  - split; [ reflexivity | ]. split; [ reflexivity | ].
    split; [ exact W | ].
    destruct colors as [| [[r g] b] colors]; reflexivity.
Qed.

End ScreenFacts.

(** * The handlers of the main window *)

Module WindowFacts.

Import LEDControllerUI MainWindow.

(** *** From the mouse to the capture box *)

Lemma frozen (es : list ScreenDimensionSelector.mouse)
      (s : ScreenDimensionSelector.t) :
  ScreenDimensionSelector.selection_complete_flag s = true ->
  ScreenDimensionSelector.mouse_events es s = s.
Proof.
  intros Hf. unfold ScreenDimensionSelector.mouse_events.
  induction es as [| e es IH]; cbn [fold_left]; [ reflexivity | ].
  assert (E : ScreenDimensionSelector.mouse_event e s = s).
  { destruct e; cbn;
      unfold ScreenDimensionSelector.mousePressEvent,
        ScreenDimensionSelector.mouseMoveEvent,
        ScreenDimensionSelector.mouseReleaseEvent;
      rewrite Hf; reflexivity. }
  rewrite E. exact IH.
Qed.

Lemma dragging (ms : list ScreenDimensionSelector.QPoint)
      (start e0 : option ScreenDimensionSelector.QPoint) (cb : bool) :
  exists e1,
    ScreenDimensionSelector.mouse_events
      (map ScreenDimensionSelector.Move ms)
      (ScreenDimensionSelector.mk start e0 false cb)
    = ScreenDimensionSelector.mk start e1 false cb.
Proof.
  revert e0. induction ms as [| m ms IH]; intros e0.
  - exists e0. reflexivity.
  - destruct (IH (Some m)) as [e1 H]. exists e1. exact H.
Qed.

Lemma drag_result (p q : ScreenDimensionSelector.QPoint)
      (moves : list ScreenDimensionSelector.QPoint)
      (extra : list ScreenDimensionSelector.mouse) :
  ScreenDimensionSelector.mouse_events
    (ScreenDimensionSelector.Press p
       :: map ScreenDimensionSelector.Move moves
       ++ ScreenDimensionSelector.Release q :: extra)
    open_screen_dimension_selector
  = ScreenDimensionSelector.mk (Some p) (Some q) true true.
Proof.
  unfold ScreenDimensionSelector.mouse_events. cbn [fold_left].
  rewrite fold_left_app.
  change (ScreenDimensionSelector.mouse_event
            (ScreenDimensionSelector.Press p) open_screen_dimension_selector)
    with (ScreenDimensionSelector.mk (Some p) None false true).
  destruct (dragging moves (Some p) None true) as [e1 H].
  unfold ScreenDimensionSelector.mouse_events in H. rewrite H.
  cbn [fold_left].
  apply (frozen extra). reflexivity.
Qed.

(** X16.  The user presses the mouse at [p], drags it along any path and
    releases it at [q], neither being the origin of the screen, and
    confirms.  Whatever the direction of the drag, and whatever the mouse
    does between the release and the confirmation, the next capture grabs
    the rectangle spanned by [p] and [q], left and top before right and
    bottom; the link and the run state of the engine are not touched, and
    clearing the region returns to the full screen. *)
Theorem selection_becomes_capture_box
        (s : t) (p q : ScreenDimensionSelector.QPoint)
        (moves : list ScreenDimensionSelector.QPoint)
        (extra : list ScreenDimensionSelector.mouse) :
  screen_responsive s <> None -> p <> (0, 0) -> q <> (0, 0) ->
  let sel :=
    ScreenDimensionSelector.mouse_events
      (ScreenDimensionSelector.Press p
         :: map ScreenDimensionSelector.Move moves
         ++ ScreenDimensionSelector.Release q :: extra)
      open_screen_dimension_selector in
  let r := confirm_selection sel s in
  fst r = inr tt /\
  capture_box (snd r)
  = Some (Z.min (fst p) (fst q), Z.min (snd p) (snd q),
          Z.max (fst p) (fst q), Z.max (snd p) (snd q)) /\
  conn (snd r) = conn s /\
  screen_running (snd r) = screen_running s /\
  visualizer (snd r) = visualizer s /\
  capture_box (snd (clear_capturing_label (snd r))) = None.
Proof.
  intros Hsr Hp Hq. cbv zeta. rewrite drag_result.
  destruct p as [px py], q as [qx qy].
  unfold confirm_selection, ScreenDimensionSelector.selection_complete,
    ScreenDimensionSelector.truthy.
  cbn [ScreenDimensionSelector.start_pos ScreenDimensionSelector.end_pos
       ScreenDimensionSelector.selection_complete_callback].
  assert (Tp : negb ((px =? 0) && (py =? 0)) = true).
  { destruct (Z.eqb_spec px 0), (Z.eqb_spec py 0); try reflexivity.
    exfalso. apply Hp. congruence. }
  assert (Tq : negb ((qx =? 0) && (qy =? 0)) = true).
  { destruct (Z.eqb_spec qx 0), (Z.eqb_spec qy 0); try reflexivity.
    exfalso. apply Hq. congruence. }
  rewrite Tp, Tq. cbn [andb fst snd].
  destruct s as [c v [sr |] r g b sel]; [ | contradiction ].
  destruct sr as [run f snap].
  unfold update_capturing_label, clear_capturing_label, on_engine,
    on_screen, zoom, ScreenResponsive.on_self, zoom,
    ScreenResponsive.select_snapshot, ScreenResponsive.clear_snapshot,
    modify, capture_box, ScreenLoop.grab_bbox, screen_running.
  cbn.
  repeat split; try reflexivity.
  replace (Z.min px qx + (Z.max px qx - Z.min px qx)) with (Z.max px qx)
    by lia.
  replace (Z.min py qy + (Z.max py qy - Z.min py qy)) with (Z.max py qy)
    by lia.
  reflexivity.
Qed.

Lemma selection_becomes_capture_box_witness :
  capture_box
    (snd (confirm_selection
            (ScreenDimensionSelector.mouse_events
               [ScreenDimensionSelector.Press (300, 40);
                ScreenDimensionSelector.Move (200, 90);
                ScreenDimensionSelector.Release (100, 200);
                ScreenDimensionSelector.Press (5, 5)]
               open_screen_dimension_selector)
            (Samples.window false false)))
  = Some (100, 40, 300, 200).
Proof.
  apply (selection_becomes_capture_box (Samples.window false false)
           (300, 40) (100, 200) [(200, 90)]
           [ScreenDimensionSelector.Press (5, 5)]);
    discriminate.
Defined.


(** *** The solid tab *)









(** *** The pattern tab *)

Lemma set_mode_wrote (m : string) (code : Z) (c : SerialConnection.t) :
  SerialConnection.link_open c = true ->
  SerialConnection.lookup m SerialConnection.modes = Some code ->
  wrote (SerialConnection.set_mode m c) c [2; code].
Proof.
  intros Hopen Hl.
  pose proof (LinkLifecycle.lookup_modes_range m code Hl) as Hc.
  unfold SerialConnection.set_mode, bind, gets. rewrite Hopen, Hl.
  cbn [negb]. rewrite DeviceLink.bytes_ok.
  - destruct (DeviceLink.arduino_write_open c [2; code] Hopen)
      as [a [Ha ->]].
    apply LinkLifecycle.wrote_intro; assumption.
  - cbn [forallb]. unfold is_byte. lia.
Qed.

Lemma send_timeout_wrote (e : bool) (c : SerialConnection.t) :
  SerialConnection.link_open c = true ->
  wrote (SerialConnection.send_timeout e c) c [1; if e then 1 else 0].
Proof.
  intros Hopen.
  unfold SerialConnection.send_timeout, bind, gets. rewrite Hopen.
  cbn [negb]. rewrite DeviceLink.bytes_ok by (destruct e; reflexivity).
  destruct (DeviceLink.arduino_write_open c [1; if e then 1 else 0] Hopen)
    as [a [Ha ->]].
  apply LinkLifecycle.wrote_intro; assumption.
Qed.

Lemma pattern_code (p : string) :
  In p patterns ->
  exists code,
    1 <= code <= 5 /\
    SerialConnection.lookup p SerialConnection.modes = Some code.
Proof.
  unfold patterns. cbn [In].
  intros [<- | [<- | [<- | [<- | [<- | []]]]]];
    eexists; (split; [ | reflexivity ]); lia.
Qed.

(** A command of the link, run from the window on an open link. *)
Lemma on_conn_wrote (m : M SerialConnection.t unit) (s : t) (f : list Z) :
  wrote (m (conn s)) (conn s) f ->
  exists c',
    on_conn m s = (inr tt, set_conn c' s) /\
    SerialConnection.link_open c' = true /\
    SerialConnection.wire c' = SerialConnection.wire (conn s) ++ [f].
Proof.
  intros (_ & H1 & H2 & H3 & _). unfold on_conn, zoom.
  destruct (m (conn s)) as [res c']. cbn [fst snd] in *. subst res.
  exists c'. split; [ reflexivity | ]. split; assumption.
Qed.

(** X18.  The link is open and the user presses the button of a pattern
    that is not the selected one.  Then the pattern becomes the selected
    one and its mode frame, with a code from 1 to 5, is written.  Pressing
    the same button again sends nothing and keeps the selection.  Coming
    back to the pattern tab later sends that mode again: it is the last
    frame of the switch. *)
Theorem pattern_selection (p : string) (s : t) :
  In p patterns ->
  SerialConnection.link_open (conn s) = true ->
  selected_button s <> Some p ->
  exists code s1,
    1 <= code <= 5 /\
    select_pattern p true s = (inr tt, s1) /\
    selected_button s1 = Some p /\
    wire s1 = wire s ++ [[2; code]] /\
    select_pattern p false s1 = (inr tt, s1) /\
    exists frames,
      wire (snd (on_tab_changed 1 s1)) = frames ++ [[2; code]].
Proof.
  intros Hin Hopen Hsel.
  destruct (pattern_code p Hin) as [code [Hc Hl]].
  set (s0 := set_selected_button (Some p) s).
  destruct (on_conn_wrote (SerialConnection.set_mode p) s0 [2; code])
    as [c1 (E1 & O1 & W1)];
    [ apply set_mode_wrote; [ exact Hopen | exact Hl ] | ].
  exists code, (set_conn c1 s0).
  split; [ exact Hc | ].
  assert (Hdiff : match selected_button s with
                  | Some b => String.eqb p b
                  | None => false
                  end = false).
  { destruct (selected_button s) as [b |]; [ | reflexivity ].
    destruct (String.eqb_spec p b) as [-> | _]; [ | reflexivity ].
    exfalso. apply Hsel. reflexivity. }
  split.
  { unfold select_pattern, bind, gets, modify. rewrite Hdiff. exact E1. }
  split; [ reflexivity | ].
  split; [ exact W1 | ].
  split.
  { unfold select_pattern, bind, gets. cbn [selected_button set_conn s0
      set_selected_button].
    rewrite String.eqb_refl. reflexivity. }
  destruct (Coordinator.unactiveTab_effect (set_conn c1 s0))
    as [mid (E & _ & _ & _ & _ & O & _ & K)].
  cbn [conn set_conn] in O. rewrite O1 in O.
  inversion K as [[K1 K2 K3 K4]]. cbn in K4.
  destruct (on_conn_wrote (SerialConnection.send_timeout false) mid [1; 0])
    as [c2 (E2 & O2 & W2)];
    [ apply (send_timeout_wrote false); exact O | ].
  destruct (on_conn_wrote (SerialConnection.set_mode p) (set_conn c2 mid)
                          [2; code])
    as [c3 (E3 & O3 & W3)];
    [ apply set_mode_wrote; [ exact O2 | exact Hl ] | ].
  exists (SerialConnection.wire c2).
  unfold on_tab_changed. unfold bind at 1. rewrite E.
  change (activate 1) with
    (on_conn (SerialConnection.send_timeout false) ;;;
     b <- gets selected_button ;;
     match b with
     | Some text => on_conn (SerialConnection.set_mode text)
     | None => ret tt
     end).
  unfold bind, gets. rewrite E2. cbn [selected_button set_conn].
  rewrite K4. rewrite E3. exact W3.
Qed.

Lemma pattern_selection_witness :
  exists code s1,
    1 <= code <= 5 /\
    select_pattern "Breathing" true (Samples.window false false)
    = (inr tt, s1) /\
    selected_button s1 = Some "Breathing"%string /\
    wire s1 = wire (Samples.window false false) ++ [[2; code]].
Proof.
  destruct (pattern_selection "Breathing" (Samples.window false false))
    as (code & s1 & H1 & H2 & H3 & H4 & _).
  - cbn. tauto.
  - reflexivity.
  - discriminate.
  - exists code, s1.
    split; [ exact H1 | ]. split; [ exact H2 | ].
    split; [ exact H3 | exact H4 ].
Defined.


(** *** The options menu *)

Ltac unfold_menu :=
  unfold connect_conn, disconnect_conn, reconnect_conn, settings_update,
    update_menu_actions, on_ui, on_conn, menu_consistent,
    SerialConnection.update_settings, SerialConnection.reconnect,
    SerialConnection.connect, SerialConnection.disconnect,
    zoom, bind, gets, modify, raise, ret, Serial.close,
    SerialConnection.link_open in *;
  cbn in *.

(** X19.  [update_menu_actions] makes the menu show the state of the
    link.  A menu that shows it keeps showing it through the Connect
    action, whether the port opens or not, through the Disconnect action,
    and through a Reconnect action whose port opens. *)
Theorem menu_follows_link (ok : bool) (w : menu) :
  menu_consistent (snd (update_menu_actions w)) /\
  (menu_consistent w ->
   menu_consistent (snd (connect_conn ok w)) /\
   menu_consistent (snd (disconnect_conn w)) /\
   menu_consistent (snd (reconnect_conn true w))).
Proof.
  destruct w as [[[[[[] wr] |] p bd st dbg th] v sr r g b sel] ca da ra];
    destruct ok; unfold_menu; repeat split; intuition congruence.
Qed.

Lemma menu_follows_link_witness :
  menu_consistent
    (snd (connect_conn true
            (mk_menu (Samples.window false false) false true true))).
Proof.
  apply (menu_follows_link true
           (mk_menu (Samples.window false false) false true true)).
  repeat split.
Defined.

(** X20.  The menu does not always show the state of the link.  A
    Reconnect action whose port does not open raises [SerialException]
    after the link has been closed and before the menu is updated: the
    link is closed and the Connect action is still disabled.  A change of
    settings whose port opens opens the link without updating the menu:
    on a link that was closed, the Connect action stays enabled and the
    Disconnect action disabled. *)
Theorem menu_can_go_stale (p : string) (bd : Z) (w : menu) :
  menu_consistent w ->
  (SerialConnection.link_open (conn (ui w)) = true ->
   let r := reconnect_conn false w in
   fst r = inl SerialException /\
   SerialConnection.link_open (conn (ui (snd r))) = false /\
   (connect_action (snd r), disconnect_action (snd r),
    reconnect_action (snd r)) = (false, true, true) /\
   ~ menu_consistent (snd r)) /\
  (SerialConnection.link_open (conn (ui w)) = false ->
   let r := settings_update p bd true w in
   fst r = inr tt /\
   SerialConnection.link_open (conn (ui (snd r))) = true /\
   (connect_action (snd r), disconnect_action (snd r),
    reconnect_action (snd r)) = (true, false, false) /\
   ~ menu_consistent (snd r)).
Proof.
  destruct w as [[[[[[] wr] |] p0 bd0 st dbg th] v sr r g b sel] ca da ra];
    unfold_menu; intros (H1 & H2 & H3); subst; split; intros H;
    try discriminate H;
    (split; [ reflexivity | ]); (split; [ reflexivity | ]);
    (split; [ reflexivity | ]); intros (K & _); discriminate K.
Qed.

Lemma menu_can_go_stale_witness :
  fst (reconnect_conn false
         (mk_menu (Samples.window false false) false true true))
  = inl SerialException /\
  connect_action
    (snd (reconnect_conn false
            (mk_menu (Samples.window false false) false true true)))
  = false.
Proof.
  destruct (menu_can_go_stale "COM3" 9600
              (mk_menu (Samples.window false false) false true true))
    as [H _]; [ repeat split | ].
  destruct H as (H1 & _ & H3 & _); [ reflexivity | ].
  split; [ exact H1 | ].
  exact (f_equal (fun x => fst (fst x)) H3).
Defined.

End WindowFacts.

(** * The list of ports *)

Module PortFacts.

Import Ports.

Lemma getitem_setitem_same (k v : string) (d : dict) :
  getitem k (setitem k v d) = inr v.
Proof.
  induction d as [| [k' v'] d IH]; cbn.
  - rewrite String.eqb_refl. reflexivity.
  - destruct (String.eqb_spec k k') as [-> | Hne]; cbn.
    + rewrite String.eqb_refl. reflexivity.
    + destruct (String.eqb_spec k k'); [ contradiction | exact IH ].
Qed.

Lemma getitem_setitem_other (k k0 v : string) (d : dict) :
  k <> k0 -> getitem k (setitem k0 v d) = getitem k d.
Proof.
  intros Hne. induction d as [| [k' v'] d IH]; cbn.
  - destruct (String.eqb_spec k k0); [ contradiction | reflexivity ].
  - destruct (String.eqb_spec k0 k') as [-> | Hne']; cbn.
    + destruct (String.eqb_spec k k'); [ contradiction | reflexivity ].
    + destruct (String.eqb_spec k k'); [ reflexivity | exact IH ].
Qed.

Lemma getitem_fold (k : string) (comports : list (string * string))
      (d : dict) :
  getitem k (fold_left (fun d p => setitem (fst p) (snd p) d) comports d)
  = match last_description k comports with
    | Some v => inr v
    | None => getitem k d
    end.
Proof.
  revert d. induction comports as [| [dev desc] rest IH]; intros d;
    cbn [fold_left last_description fst snd]; [ reflexivity | ].
  rewrite IH. destruct (last_description k rest); [ reflexivity | ].
  destruct (String.eqb_spec k dev) as [-> | Hne].
  - apply getitem_setitem_same.
  - apply getitem_setitem_other. exact Hne.
Qed.

Lemma last_description_none (k : string)
      (comports : list (string * string)) :
  last_description k comports = None <-> ~ In k (map fst comports).
Proof.
  induction comports as [| [dev desc] rest IH]; cbn.
  - tauto.
  - destruct (last_description k rest) as [v |].
    + split; [ discriminate | ].
      intros H. exfalso. destruct IH as [_ IH].
      assert (Hn : ~ In k (map fst rest)) by tauto.
      specialize (IH Hn). discriminate IH.
    + destruct (String.eqb_spec k dev) as [-> | Hne].
      * split; [ discriminate | ]. intros H. exfalso. apply H. left.
        reflexivity.
      * split; [ | reflexivity ]. intros _ [H | H]; [ congruence | ].
        destruct IH as [IH _]. apply IH; [ reflexivity | exact H ].
Qed.

(** X21.  [get_ports] maps every device that is listed to the description
    of its last entry in the list, and looking up any other name raises
    [KeyError].  The settings window looks up the port of the connection
    when it is built: building it fails with [KeyError] exactly when that
    port is not among the listed devices. *)
Theorem get_ports_lookup (comports : list (string * string))
        (c : SerialConnection.t) (k : string) :
  getitem k (get_ports comports)
  = match last_description k comports with
    | Some v => inr v
    | None => inl (key_error k)
    end /\
  (~ In k (map fst comports) <->
   getitem k (get_ports comports) = inl (key_error k)) /\
  (~ In (SerialConnection.port c) (map fst comports) <->
   port_dropdown comports c = inl (key_error (SerialConnection.port c))).
Proof.
  assert (H : forall k,
             getitem k (get_ports comports)
             = match last_description k comports with
               | Some v => inr v
               | None => inl (key_error k)
               end).
  { intros k0. unfold get_ports. rewrite getitem_fold. reflexivity. }
  assert (H' : forall k,
             ~ In k (map fst comports) <->
             getitem k (get_ports comports) = inl (key_error k)).
  { intros k0. rewrite H, <- last_description_none.
    destruct (last_description k0 comports); split; intros E;
      try discriminate E; reflexivity. }
  split; [ apply H | ]. split; [ apply H' | ].
  rewrite H'. unfold port_dropdown.
  destruct (getitem (SerialConnection.port c) (get_ports comports))
    as [[k'] | v]; split; intros E; try discriminate E.
  - inversion E. reflexivity.
  - inversion E. reflexivity.
Qed.

Lemma get_ports_lookup_witness :
  port_dropdown [("COM3", "Arduino Uno"); ("COM4", "USB Serial")]%string
                (SerialConnection.__init__ "COM11" 9600 false)
  = inl (key_error "COM11").
Proof.
  apply (get_ports_lookup
           [("COM3", "Arduino Uno"); ("COM4", "USB Serial")]%string
           (SerialConnection.__init__ "COM11" 9600 false) "COM11"%string).
  cbn. intros [H | [H | []]]; discriminate H.
Defined.

End PortFacts.

(** * What [close] leaves behind *)

Module ShutdownFacts.

Import SerialConnection.

Lemma close_effect (w : Class * t) :
  shutdown_inv w ->
  let w' := snd (close w) in
  fst w' = fst w /\
  stop_thread (snd w') = true /\
  wire (snd w') = wire (snd w) /\
  match thread (snd w) with
  | Some _ =>
      link_open (snd w') = false /\
      thread (snd w') = Some {| alive := false |}
  | None => arduino (snd w') = arduino (snd w) /\ thread (snd w') = None
  end.
Proof.
  destruct w as [[[[] |]] [ard p bd st dbg th]].
  all: unfold shutdown_inv; cbn [fst snd _instance thread arduino].
  all: intros [Hk Ht]; try discriminate Hk.
  destruct th as [[al] |]; destruct ard as [[op wr] |].
  - cbv zeta. cbn. repeat split.
  - exfalso. apply Ht; [ discriminate | reflexivity ].
  - cbv zeta. cbn. repeat split.
  - cbv zeta. cbn. repeat split.
Qed.

(** X22.  After any sequence of calls, the [close] that raises still
    sets the stop flag and never loses the log of the transport.  If
    there is a reader thread, it has been joined and the port is closed
    when the error of the last statement comes.  If there is none, the
    error comes first and the port is left as it was, open if it was
    open. *)
Theorem close_releases (p : string) (bd : Z) (dbg : bool) (cs : list call) :
  let w := run cs (class_def, __init__ p bd dbg) in
  let w' := snd (close w) in
  stop_thread (snd w') = true /\
  wire (snd w') = wire (snd w) /\
  match thread (snd w) with
  | Some _ =>
      link_open (snd w') = false /\
      thread (snd w') = Some {| alive := false |}
  | None => arduino (snd w') = arduino (snd w) /\ thread (snd w') = None
  end.
Proof.
  intros w w'.
  assert (Hinv : shutdown_inv w).
  { apply DeviceLink.run_keeps_inv. split; [ reflexivity | ].
    intros H. exfalso. apply H. reflexivity. }
  destruct (close_effect w Hinv) as (_ & H1 & H2 & H3).
  split; [ exact H1 | ]. split; [ exact H2 | exact H3 ].
Qed.

(** A port opened and never given a reader stays open through [close]. *)
Example close_leaves_port_open :
  link_open
    (snd (snd (close (run [Connect true; SendColor 1 2 3]
                          (class_def, __init__ "COM11" 9600 false)))))
  = true.
Proof. reflexivity. Qed.

End ShutdownFacts.
